(** * A shallow embedding of the CSV-to-GitHub import pipeline

    Sources: [src/src/csv_handler.py] ([CSVHandler]), [src/src/validators.py]
    ([GitHubValidator]), [src/src/issue_mapper.py] ([IssueMapper]),
    [src/src/cli.py] ([ImportPipeline], [main]) and the error-swallowing
    contract of [src/src/github_client.py] ([GitHubClient]).

    Python values are modelled as follows:
    - a [str] is a [string]; a cell of a [csv.DictReader] row is an
      [option string], [None] being the reader's [restval] for a short row;
    - a [dict] row is an association list kept with unique keys (a later
      assignment to a key overwrites it, as for a Python dict), plus the
      [restkey] entry holding the surplus cells of a long row;
    - a raised exception is the [Exc] branch of [res], carrying [str(e)]. *)

From Stdlib Require Import String Ascii List Bool Arith Lia.
From Stdlib Require Import Permutation Setoid.
Import ListNotations.
Open Scope string_scope.
Open Scope list_scope.

(** ** Python string helpers *)

Module Py.

(** [str.isspace] restricted to one byte: [\t \n \x0b \x0c \r],
    [\x1c]-[\x1f] and the space. *)
Definition isspace (c : ascii) : bool :=
  let n := nat_of_ascii c in
  (Nat.leb 9 n && Nat.leb n 13) || (Nat.leb 28 n && Nat.leb n 32).

Fixpoint drop_space (l : list ascii) : list ascii :=
  match l with
  | [] => []
  | c :: t => if isspace c then drop_space t else l
  end.

(** [str.strip()] *)
Definition strip (s : string) : string :=
  string_of_list_ascii
    (rev (drop_space (rev (drop_space (list_ascii_of_string s))))).

Fixpoint split_chars (sep : ascii) (l : list ascii) : list (list ascii) :=
  match l with
  | [] => [[]]
  | c :: t =>
      let rest := split_chars sep t in
      if Ascii.eqb c sep then [] :: rest
      else match rest with
           | h :: r => (c :: h) :: r
           | [] => [[c]]
           end
  end.

(** [str.split(sep)] for a one-character separator. *)
Definition split (sep : ascii) (s : string) : list string :=
  map string_of_list_ascii (split_chars sep (list_ascii_of_string s)).

Definition lower_char (c : ascii) : ascii :=
  let n := nat_of_ascii c in
  if Nat.leb 65 n && Nat.leb n 90 then ascii_of_nat (n + 32) else c.

(** [str.lower()] on the ASCII letters. *)
Definition lower (s : string) : string :=
  string_of_list_ascii (map lower_char (list_ascii_of_string s)).

(** [str(x)] for a value that is a [str] or [None]. *)
Definition str_opt (v : option string) : string :=
  match v with Some s => s | None => "None" end.

(** Truthiness of a [str] or [None]. *)
Definition truthy (v : option string) : bool :=
  match v with Some s => negb (String.eqb s "") | None => false end.

(** [a or b] on two values that are [str] or [None]. *)
Definition or_else (a b : option string) : option string :=
  if truthy a then a else b.

(** The message of the [AttributeError] raised by [None.strip()]. *)
Definition none_strip_error : string :=
  "'NoneType' object has no attribute 'strip'".

(** [', '.join(xs)] *)
Fixpoint join_comma (xs : list string) : string :=
  match xs with
  | [] => ""
  | [x] => x
  | x :: t => (x ++ ", " ++ join_comma t)%string
  end.

End Py.

(** Result of a Python computation that may raise. *)
Inductive res (A : Type) : Type :=
| Ret (a : A)
| Exc (msg : string).
Arguments Ret {A} a.
Arguments Exc {A} msg.

Definition rbind {A B} (m : res A) (k : A -> res B) : res B :=
  match m with Ret a => k a | Exc e => Exc e end.

Notation "x <- m ;; k" := (rbind m (fun x => k))
  (at level 61, m at next level, right associativity).

(** ** Rows produced by [csv.DictReader] *)

Record row := mkRow {
  cells : list (string * option string);
  restkey : option (list string)   (* the [None] key of a long row *)
}.

Fixpoint dict_set (d : list (string * option string)) (k : string)
  (v : option string) : list (string * option string) :=
  match d with
  | [] => [(k, v)]
  | (k', v') :: t =>
      if String.eqb k k' then (k, v) :: t else (k', v') :: dict_set t k v
  end.

Fixpoint dict_get (d : list (string * option string)) (k : string)
  : option (option string) :=
  match d with
  | [] => None
  | (k', v) :: t => if String.eqb k k' then Some v else dict_get t k
  end.

(** [row.get(k)] *)
Definition get (r : row) (k : string) : option string :=
  match dict_get (cells r) k with Some v => v | None => None end.

(** [row.get(k, default)] *)
Definition get_default (r : row) (k default : string) : option string :=
  match dict_get (cells r) k with Some v => v | None => Some default end.

(** [DictReader.__next__] on one non-blank record: [dict(zip(...))], then the
    surplus cells under [restkey] or [restval] ([None]) for missing ones. *)
Definition make_row (fieldnames record : list string) : row :=
  let d := fold_left (fun d kv => dict_set d (fst kv) (Some (snd kv)))
             (combine fieldnames record) [] in
  let lf := length fieldnames in
  let lr := length record in
  if Nat.ltb lf lr then mkRow d (Some (skipn lf record))
  else if Nat.ltb lr lf then
    mkRow (fold_left (fun d k => dict_set d k None) (skipn lr fieldnames) d) None
  else mkRow d None.

(** [any(row.values())]: a [restkey] entry is a non-empty list. *)
Definition any_values (r : row) : bool :=
  existsb (fun kv => Py.truthy (snd kv)) (cells r)
  || match restkey r with Some _ => true | None => false end.

(** [DictReader] skips records that are [[]] (blank lines). *)
Definition nonblank (record : list string) : bool :=
  match record with [] => false | _ => true end.

(** ** Input file, findings and the Validate stage *)

(** What [open] plus [csv.DictReader] yield for a file: either the file
    cannot be opened or its header cannot be read, or a header row
    ([fieldnames], [[]] when the file is empty), the records read after it,
    and possibly an exception raised while reading further (for instance a
    [UnicodeDecodeError] in the middle of the file). *)
Inductive csv_file :=
| Unreadable (msg : string)
| Readable (fieldnames : list string) (body : list (list string))
           (read_error : option string).

(** A finding dict: ["row"], ["field"], ["message"] and, for the
    validators' findings only, ["severity"]. *)
Record finding := mkFinding {
  f_row : nat;
  f_field : string;
  f_message : string;
  f_severity : option string
}.

Definition REQUIRED_COLUMNS : list string :=
  ["Title"; "Description"; "Type"; "Labels"; "Assignee"; "Milestone"].

(** [self.template_columns - set(reader.fieldnames)]; the iteration order of
    the Python set is fixed here to the order of [REQUIRED_COLUMNS]. *)
Definition missing_cols (fieldnames : list string) : list string :=
  filter (fun c => negb (existsb (String.eqb c) fieldnames)) REQUIRED_COLUMNS.

Definition file_error (msg : string) : finding :=
  mkFinding 0 "file" ("Failed to read file: " ++ msg)%string None.

(** The rows [read_csv] keeps: the parsed records with a truthy value. *)
Definition parse_rows (fieldnames : list string) (body : list (list string))
  : list row :=
  filter any_values (map (make_row fieldnames) (filter nonblank body)).

(** [CSVHandler.read_csv] *)
Definition read_csv (f : csv_file) : list row * list finding :=
  match f with
  | Unreadable msg => ([], [file_error msg])
  | Readable fieldnames body rerr =>
      match fieldnames with
      | [] => ([], [mkFinding 0 "headers" "No columns found" None])
      | _ =>
          let mc := missing_cols fieldnames in
          let herr :=
            match mc with
            | [] => []
            | _ => [mkFinding 0 "headers"
                      ("Missing required columns: " ++ Py.join_comma mc)%string None]
            end in
          let tail :=
            match rerr with Some msg => [file_error msg] | None => [] end in
          (parse_rows fieldnames body, herr ++ tail)
      end
  end.

Definition is_epic_or_task (v : option string) : bool :=
  match v with
  | Some s => String.eqb s "Epic" || String.eqb s "Task"
  | None => false
  end.

(** The two checks of one row of [CSVHandler.validate_format];
    [row.get('Title', '').strip()] raises when the cell is [None]. *)
Definition validate_row (row_num : nat) (r : row) : res (list finding) :=
  match get_default r "Title" "" with
  | None => Exc Py.none_strip_error
  | Some t =>
      let e1 := if String.eqb (Py.strip t) ""
                then [mkFinding row_num "Title" "Title is required" None]
                else [] in
      let e2 := if is_epic_or_task (get r "Type") then []
                else [mkFinding row_num "Type"
                        ("Type must be 'Epic' or 'Task', got '"
                           ++ Py.str_opt (get r "Type") ++ "'")%string None] in
      Ret (e1 ++ e2)
  end.

Fixpoint validate_format_from (row_num : nat) (rows : list row)
  : res (list finding) :=
  match rows with
  | [] => Ret []
  | r :: t =>
      e <- validate_row row_num r ;;
      es <- validate_format_from (S row_num) t ;;
      Ret (e ++ es)
  end.

(** [CSVHandler.validate_format]: [enumerate(rows, start=2)]. *)
Definition validate_format (rows : list row) : res (list finding) :=
  validate_format_from 2 rows.

(** The dict returned by [ImportPipeline.validate]. *)
Record stage_result := mkStage {
  valid : bool;
  rows_count : nat;
  errors : list finding;
  warnings : list finding;
  data : list row
}.

(** [ImportPipeline.validate] *)
Definition validate (f : csv_file) : res stage_result :=
  let '(rows, errs) := read_csv f in
  ferrs <- validate_format rows ;;
  let errs' := errs ++ ferrs in
  Ret (mkStage (Nat.eqb (length errs') 0) (length rows) errs' [] rows).

(** ** The remote service

    [GitHubClient] wraps every request in [try ... except Exception] and
    returns [None] on any failure, so none of its methods raises: a lookup
    answers "found" or not (not found and failure alike), a creation answers
    with a created object or [None].  The remote state [St] and the issue
    objects [Issue] are left abstract. *)
Record client (St Issue : Type) := mkClient {
  get_user : St -> string -> bool;
  get_label : St -> option string -> string -> bool;
  create_label : St -> option string -> string -> St * bool;
  create_issue : St -> option string -> string -> string -> list string ->
                 option string -> option string -> St * option Issue
}.
Arguments mkClient {St Issue}.
Arguments get_user {St Issue}.
Arguments get_label {St Issue}.
Arguments create_label {St Issue}.
Arguments create_issue {St Issue}.

(** The requests the client sends, with their answer. *)
Inductive event :=
| ELookupUser (name : string) (found : bool)
| ELookupLabel (repo : option string) (name : string) (found : bool)
| ECreateLabel (repo : option string) (name : string) (ok : bool)
| ECreateIssue (repo : option string) (title : string) (ok : bool).

(** ['repository_rules'] of the configuration. *)
Record config := mkConfig {
  rr_primary : option string;
  rr_secondary : option string;
  rr_default : option string
}.

(** The dict built by [IssueMapper.map_row_to_issue]. *)
Record issue := mkIssue {
  title : string;
  body : string;
  labels : list string;
  assignee : option string;
  milestone : option string;
  type_ : option string;
  repository : option string
}.

(** [list(set(xs))]: the order of a Python set is unspecified, the model
    keeps first occurrences. *)
Fixpoint dedup (xs : list string) : list string :=
  match xs with
  | [] => []
  | x :: t => x :: filter (fun y => negb (String.eqb x y)) (dedup t)
  end.

(** [IssueMapper._parse_labels] *)
Definition parse_labels (labels_str : option string) : list string :=
  match labels_str with
  | Some s =>
      if Py.truthy labels_str
      then map Py.strip
             (filter (fun l => negb (String.eqb (Py.strip l) ""))
                (Py.split ";" s))
      else []
  | None => []
  end.

(** [v.strip()] on a value that is a [str] or [None]. *)
Definition strip_opt (v : option string) : res string :=
  match v with Some s => Ret (Py.strip s) | None => Exc Py.none_strip_error end.

(** [s or None] *)
Definition none_if_empty (s : string) : option string :=
  if String.eqb s "" then None else Some s.

(** [IssueMapper.map_row_to_issue] *)
Definition map_row_to_issue (r : row) (repo : option string) : res issue :=
  let lbls := parse_labels (get_default r "Labels" "") ++ ["ask-myuni"] in
  t <- strip_opt (get_default r "Title" "") ;;
  b <- strip_opt (get_default r "Description" "") ;;
  a <- strip_opt (get_default r "Assignee" "") ;;
  m <- strip_opt (get_default r "Milestone" "") ;;
  Ret (mkIssue t b (dedup lbls) (none_if_empty a) (none_if_empty m)
         (get_default r "Type" "Task") repo).

(** A per-row result of the import loop. *)
Inductive outcome (Issue : Type) :=
| Created (created : Issue)
| Failed (row_title : option string) (message : string).
Arguments Created {Issue}.
Arguments Failed {Issue}.

(** An entry of the import loop's [errors] list. *)
Record failure := mkFailure { row_title : option string; message : string }.

(** The dict returned by [import_to_github] after the loop. *)
Record import_result (Issue : Type) := mkImport {
  i_valid : bool;
  created_issues : list Issue;
  i_errors : list failure;
  total_created : nat
}.
Arguments mkImport {Issue}.
Arguments i_valid {Issue}.
Arguments created_issues {Issue}.
Arguments i_errors {Issue}.
Arguments total_created {Issue}.

(** How [main] ends: [sys.exit(code)], falling off the end, or an uncaught
    exception (the interpreter then exits with status 1). *)
Inductive exit :=
| Exited (code : nat)
| Finished
| Raised (msg : string).

Definition exit_status (e : exit) : nat :=
  match e with Exited n => n | Finished => 0 | Raised _ => 1 end.

(** ** The stateful stages *)

Section Pipeline.

Context {St Issue : Type}.
Variable c : client St Issue.
Variable cfg : config.

(** State of the remote service, requests sent, and a Python result. *)
Definition M (A : Type) : Type := St -> St * list event * res A.

Definition mret {A} (a : A) : M A := fun s => (s, [], Ret a).

Definition mbind {A B} (m : M A) (k : A -> M B) : M B :=
  fun s =>
    match m s with
    | (s1, t1, Ret a) =>
        match k a s1 with (s2, t2, r) => (s2, t1 ++ t2, r) end
    | (s1, t1, Exc e) => (s1, t1, Exc e)
    end.

Definition lift_res {A} (r : res A) : M A := fun s => (s, [], r).

Local Notation "'do' x <- m ; k" := (mbind m (fun x => k))
  (at level 200, x name, m at level 100, right associativity).

Definition call_get_user (name : string) : M bool :=
  fun s => let b := get_user c s name in (s, [ELookupUser name b], Ret b).

Definition call_get_label (repo : option string) (name : string) : M bool :=
  fun s => let b := get_label c s repo name in
           (s, [ELookupLabel repo name b], Ret b).

Definition call_create_label (repo : option string) (name : string) : M bool :=
  fun s => let '(s', ok) := create_label c s repo name in
           (s', [ECreateLabel repo name ok], Ret ok).

Definition call_create_issue (repo : option string) (i : issue)
  : M (option Issue) :=
  fun s =>
    let '(s', r) := create_issue c s repo (title i) (body i) (labels i)
                      (assignee i) (milestone i) in
    (s', [ECreateIssue repo (title i) (match r with Some _ => true
                                                   | None => false end)],
     Ret r).

(** *** Stage 2: [GitHubValidator] and [ImportPipeline.enrich] *)

Fixpoint validate_assignees_from (row_num : nat) (rows : list row)
  : M (list finding) :=
  match rows with
  | [] => mret []
  | r :: t =>
      do a <- lift_res (strip_opt (get_default r "Assignee" ""));
      do e <- (if String.eqb a "" then mret []
               else do u <- call_get_user a;
                    mret (if u then []
                          else [mkFinding row_num "Assignee"
                                  ("User '" ++ a ++ "' not found in GitHub")%string
                                  (Some "warn")]));
      do es <- validate_assignees_from (S row_num) t;
      mret (e ++ es)
  end.

(** [GitHubValidator.validate_assignees] *)
Definition validate_assignees (rows : list row) : M (list finding) :=
  validate_assignees_from 2 rows.

Fixpoint check_labels (repo : string) (row_num : nat) (ls : list string)
  : M (list finding) :=
  match ls with
  | [] => mret []
  | l :: t =>
      do found <- call_get_label (Some repo) l;
      do es <- check_labels repo row_num t;
      mret ((if found then []
             else [mkFinding row_num "Labels"
                     ("Label '" ++ l ++ "' not found in " ++ repo
                        ++ ", will create")%string (Some "info")]) ++ es)
  end.

Fixpoint validate_labels_from (repo : string) (row_num : nat) (rows : list row)
  : M (list finding) :=
  match rows with
  | [] => mret []
  | r :: t =>
      do ls <- lift_res (strip_opt (get_default r "Labels" ""));
      do e <- (if String.eqb ls "" then mret []
               else check_labels repo row_num (map Py.strip (Py.split ";" ls)));
      do es <- validate_labels_from repo (S row_num) t;
      mret (e ++ es)
  end.

(** [GitHubValidator.validate_labels] *)
Definition validate_labels (rows : list row) (repo : string)
  : M (list finding) :=
  validate_labels_from repo 2 rows.

Definition labels_pass (repo : option string) (rows : list row)
  : M (list finding) :=
  match repo with
  | Some r => if Py.truthy repo then validate_labels rows r else mret []
  | None => mret []
  end.

(** [ImportPipeline.enrich]: the warnings are appended to the Validate
    result, which is returned. *)
Definition enrich (vr : stage_result) : M stage_result :=
  if negb (valid vr) then mret vr
  else
    do w1 <- validate_assignees (data vr);
    do w2 <- labels_pass (rr_primary cfg) (data vr);
    do w3 <- labels_pass (rr_secondary cfg) (data vr);
    mret (mkStage (valid vr) (rows_count vr) (errors vr)
            (warnings vr ++ w1 ++ w2 ++ w3) (data vr)).

(** *** Stage 3: [IssueMapper.enrich_with_github_metadata] and
    [ImportPipeline.import_to_github] *)

Fixpoint enrich_labels (repo : option string) (ls : list string)
  (enriched : list string) : M (list string) :=
  match ls with
  | [] => mret enriched
  | l :: t =>
      do found <- call_get_label repo l;
      do _ <- (if found then mret false else call_create_label repo l);
      enrich_labels repo t (enriched ++ [l])
  end.

(** [IssueMapper.enrich_with_github_metadata] *)
Definition enrich_with_github_metadata (i : issue) : M issue :=
  do ls <- enrich_labels (repository i) (labels i) [];
  mret (mkIssue (title i) (body i) ls (assignee i) (milestone i) (type_ i)
          (repository i)).

(** The body of the [try] block for one row. *)
Definition process_row (r : row) : M (outcome Issue) :=
  let repo := Py.or_else (get r "Repository") (rr_default cfg) in
  do i <- lift_res (map_row_to_issue r repo);
  do i' <- enrich_with_github_metadata i;
  do created <- call_create_issue repo i';
  mret (match created with
        | Some x => Created x
        | None => Failed (get r "Title") "Failed to create issue"
        end).

(** The [try ... except Exception as e] around it. *)
Definition commit_row (r : row) : M (outcome Issue) :=
  fun s =>
    match process_row r s with
    | (s1, t1, Ret o) => (s1, t1, Ret o)
    | (s1, t1, Exc e) => (s1, t1, Ret (Failed (get r "Title") e))
    end.

Fixpoint import_rows (rows : list row) (created : list Issue)
  (errs : list failure) : M (list Issue * list failure) :=
  match rows with
  | [] => mret (created, errs)
  | r :: t =>
      do o <- commit_row r;
      match o with
      | Created x => import_rows t (created ++ [x]) errs
      | Failed ti m => import_rows t created (errs ++ [mkFailure ti m])
      end
  end.

(** [ImportPipeline.import_to_github]: an invalid input is returned as is. *)
Definition import_to_github (er : stage_result)
  : M (stage_result + import_result Issue) :=
  if negb (valid er) then mret (inl er)
  else
    do p <- import_rows (data er) [] [];
    mret (inr (mkImport (Nat.eqb (length (snd p)) 0) (fst p) (snd p)
                 (length (fst p)))).

(** *** The [import] command of [main] *)

(** [input(...)] answers [None] at end of input, which raises [EOFError]. *)
Definition main_import (f : csv_file) (confirm : bool)
  (response : option string) : M exit :=
  do vr <- lift_res (validate f);
  if negb (valid vr) then mret (Exited 1)
  else
    do er <- enrich vr;
    do go <- (if confirm then mret true
              else match response with
                   | None => lift_res (Exc "EOF when reading a line")
                   | Some a => mret (String.eqb (Py.lower a) "yes")
                   end);
    if negb go then mret (Exited 0)
    else do _ <- import_to_github er; mret Finished.

(** How the process ends, from the remote state [s]. *)
Definition run_main (f : csv_file) (confirm : bool) (response : option string)
  (s : St) : exit :=
  match main_import f confirm response s with
  | (_, _, Ret e) => e
  | (_, _, Exc m) => Raised m
  end.

End Pipeline.

(** ** Definitions following the spec's wording *)

(** The Labels text of a row: [row.get('Labels', '')], a [None] cell read as
    the empty text (as [_parse_labels] does). *)
Definition labels_text (r : row) : string :=
  match get_default r "Labels" "" with Some s => s | None => "" end.

(** "split on ';' with each part trimmed and empty parts dropped" *)
Definition claimed_label_parts (s : string) : list string :=
  filter (fun p => negb (String.eqb p "")) (map Py.strip (Py.split ";" s)).

(** The per-label request pattern the enrichment applier is described to
    follow: each label is looked up; an absent one is followed by one
    create-label request, whatever its answer, and the next label follows. *)
Inductive label_steps (repo : option string) : list string -> list event -> Prop :=
| ls_nil : label_steps repo [] []
| ls_found l ls t :
    label_steps repo ls t ->
    label_steps repo (l :: ls) (ELookupLabel repo l true :: t)
| ls_absent l ls ok t :
    label_steps repo ls t ->
    label_steps repo (l :: ls) (ELookupLabel repo l false :: ECreateLabel repo l ok :: t).

(** Two clients that differ at most in the answer of [create_label]. *)
Definition differ_in_create_answer {St Issue} (c c' : client St Issue) : Prop :=
  (forall s u, get_user c s u = get_user c' s u) /\
  (forall s r l, get_label c s r l = get_label c' s r l) /\
  (forall s r l, fst (create_label c s r l) = fst (create_label c' s r l)) /\
  (forall s r t b ls a m,
      create_issue c s r t b ls a m = create_issue c' s r t b ls a m).

(** The outcomes of a run of the import loop, one per row, each computed
    from the remote state the previous rows left. *)
Inductive commit_trace {St Issue} (c : client St Issue) (cfg : config)
  : St -> list row -> list (outcome Issue) -> St -> Prop :=
| ct_nil s : commit_trace c cfg s [] [] s
| ct_cons s r rows o outs s1 t1 s' :
    commit_row c cfg r s = (s1, t1, Ret o) ->
    commit_trace c cfg s1 rows outs s' ->
    commit_trace c cfg s (r :: rows) (o :: outs) s'.

Definition created_of {Issue} (outs : list (outcome Issue)) : list Issue :=
  flat_map (fun o => match o with Created x => [x] | Failed _ _ => [] end) outs.

Definition failures_of {Issue} (outs : list (outcome Issue)) : list failure :=
  flat_map (fun o => match o with
                     | Created _ => []
                     | Failed ti m => [mkFailure ti m]
                     end) outs.

(** ** A concrete remote service for the examples

    The state counts the issues created so far; an issue titled ["fail"] is
    rejected; [create_label] answers [ok] (the state is unchanged either
    way, the remote being the arbiter of labels). *)
Definition demo_client (ok : bool) : client nat nat :=
  mkClient (fun _ _ => true) (fun _ _ _ => false) (fun s _ _ => (s, ok))
    (fun s _ t _ _ _ _ => if String.eqb t "fail" then (s, None) else (S s, Some s)).

Definition demo_config : config := mkConfig (Some "askmyuni") None (Some "askmyuni").

Definition HEADER : list string :=
  ["Title"; "Description"; "Type"; "Labels"; "Assignee"; "Milestone"].

Definition row_of (record : list string) : row := make_row HEADER record.

Definition valid_stage (rows : list row) : stage_result :=
  mkStage true (length rows) [] [] rows.

(** ** Validate-stage predicates *)

(** "non-empty Title after trimming, Type exactly 'Epic' or 'Task'" *)
Definition row_ok (r : row) : Prop :=
  (exists t, get_default r "Title" "" = Some t /\ Py.strip t <> "") /\
  (get r "Type" = Some "Epic" \/ get r "Type" = Some "Task").

(** "the declared header set is a superset of the required fields" *)
Definition header_superset (fieldnames : list string) : Prop :=
  forall col, In col REQUIRED_COLUMNS -> In col fieldnames.

Definition declared_headers (f : csv_file) : list string :=
  match f with Readable fns _ _ => fns | Unreadable _ => [] end.

(** The whole file was read without an exception. *)
Definition read_clean (f : csv_file) : Prop :=
  match f with Readable _ _ None => True | _ => False end.

Ltac stage_not_invalid :=
  split;
  [let Hz := fresh in intro Hz; exfalso; apply Hz; reflexivity
  |let vr' := fresh in let Hvr := fresh in let Hf := fresh in
   intros (vr' & Hvr & Hf); injection Hvr as <-; congruence].

(** ** Definitions for the further properties *)

Definition format_finding_ok (lo hi : nat) (e : finding) : Prop :=
  lo <= f_row e < hi /\ (f_field e = "Title" \/ f_field e = "Type") /\
  f_severity e = None.

Definition read_finding_ok (e : finding) : Prop :=
  f_row e = 0 /\ (f_field e = "headers" \/ f_field e = "file") /\
  f_severity e = None.

Definition is_lookup (e : event) : bool :=
  match e with ELookupUser _ _ | ELookupLabel _ _ _ => true | _ => false end.

(** A computation that leaves the remote state as it is, sends only lookups
    and, when it returns, returns a value satisfying [P]. *)
Definition read_only {St A : Type} (P : A -> Prop) (m : @M St A) : Prop :=
  forall s, match m s with
            | (s', t, r) => s' = s /\ forallb is_lookup t = true /\
                            (forall a, r = Ret a -> P a)
            end.

(** An Enrich warning: row number in [lo, hi), an unknown assignee
    ([warn]) or an absent label ([info]). *)
Definition warning_ok (lo hi : nat) (e : finding) : Prop :=
  lo <= f_row e < hi /\
  ((f_field e = "Assignee" /\ f_severity e = Some "warn") \/
   (f_field e = "Labels" /\ f_severity e = Some "info")).

(** The label lookups [validate_labels] sends for one row: every part of
    the ['Labels'] cell split on [';'] and stripped, empty parts included. *)
Definition label_lookups {St Issue} (c : client St Issue) (s : St)
  (repo : string) (r : row) : list event :=
  match get_default r "Labels" "" with
  | Some v =>
      let ls := Py.strip v in
      if String.eqb ls "" then []
      else map (fun l => ELookupLabel (Some repo) l (get_label c s (Some repo) l))
             (map Py.strip (Py.split ";" ls))
  | None => []
  end.

Definition strip_fields : list string :=
  ["Title"; "Description"; "Assignee"; "Milestone"].

(** The user lookup [validate_assignees] sends for one row: the stripped
    ['Assignee'] cell, when it is not empty. *)
Definition assignee_lookup {St Issue} (c : client St Issue) (s : St) (r : row)
  : list event :=
  match get_default r "Assignee" "" with
  | Some v =>
      let a := Py.strip v in
      if String.eqb a "" then [] else [ELookupUser a (get_user c s a)]
  | None => []
  end.

(** ** Helper lemmas *)

Lemma dedup_In (x : string) (xs : list string) : In x (dedup xs) <-> In x xs.
Proof.
  induction xs as [|y t IH]; simpl; [tauto|].
  rewrite filter_In, IH. split.
  - intros [H|[H1 H2]]; auto.
  - intros [H|H]; [auto|].
    destruct (String.eqb_spec y x) as [->|Hne]; [auto|].
    right. split; [exact H|]. reflexivity.
Qed.

Lemma dedup_NoDup (xs : list string) : NoDup (dedup xs).
Proof.
  induction xs as [|y t IH]; simpl; constructor.
  - rewrite filter_In. intros [_ H]. rewrite String.eqb_refl in H. discriminate.
  - apply NoDup_filter. exact IH.
Qed.

Lemma map_strip_filter (xs : list string) :
  map Py.strip (filter (fun l => negb (String.eqb (Py.strip l) "")) xs)
  = filter (fun p => negb (String.eqb p "")) (map Py.strip xs).
Proof.
  induction xs as [|x t IH]; simpl; auto.
  destruct (String.eqb (Py.strip x) ""); simpl; rewrite IH; auto.
Qed.

Lemma parse_labels_text (r : row) :
  parse_labels (get_default r "Labels" "") = claimed_label_parts (labels_text r).
Proof.
  unfold labels_text, claimed_label_parts, parse_labels.
  destruct (get_default r "Labels" "") as [s|]; [|reflexivity].
  unfold Py.truthy. destruct (String.eqb_spec s "") as [->|Hne].
  - reflexivity.
  - simpl. apply map_strip_filter.
Qed.

Lemma map_row_to_issue_labels (r : row) (repo : option string) (i : issue) :
  map_row_to_issue r repo = Ret i ->
  labels i = dedup (parse_labels (get_default r "Labels" "") ++ ["ask-myuni"]).
Proof.
  unfold map_row_to_issue, rbind, strip_opt.
  destruct (get_default r "Title" ""), (get_default r "Description" ""),
    (get_default r "Assignee" ""), (get_default r "Milestone" "");
    intro H; try discriminate.
  injection H as <-. reflexivity.
Qed.

(** [enrich_labels] keeps every label, in order, and sends the requests
    described by [label_steps]. *)
Lemma enrich_labels_run {St Issue} (c : client St Issue) (repo : option string)
  (ls acc : list string) (s : St) :
  exists s' t, enrich_labels c repo ls acc s = (s', t, Ret (acc ++ ls))
               /\ label_steps repo ls t.
Proof.
  revert acc s. induction ls as [|l ls IH]; intros acc s.
  - exists s, []. rewrite app_nil_r. split; [reflexivity|constructor].
  - simpl. unfold mbind, call_get_label at 1.
    destruct (get_label c s repo l) eqn:Hf.
    + destruct (IH (acc ++ [l]) s) as (s' & t & Hrun & Hsteps).
      simpl. rewrite Hrun. exists s', (ELookupLabel repo l true :: t).
      rewrite <- app_assoc. split; [reflexivity|constructor; exact Hsteps].
    + unfold call_create_label. simpl. destruct (create_label c s repo l) as [s1 ok] eqn:Hc.
      destruct (IH (acc ++ [l]) s1) as (s' & t & Hrun & Hsteps).
      simpl. rewrite Hrun.
      exists s', (ELookupLabel repo l false :: ECreateLabel repo l ok :: t).
      rewrite <- app_assoc. split; [reflexivity|constructor; exact Hsteps].
Qed.

Lemma enrich_with_github_metadata_run {St Issue} (c : client St Issue)
  (i : issue) (s : St) :
  exists s' t, enrich_with_github_metadata c i s = (s', t, Ret i)
               /\ label_steps (repository i) (labels i) t.
Proof.
  destruct (enrich_labels_run c (repository i) (labels i) [] s)
    as (s' & t & Hrun & Hsteps).
  exists s', (t ++ []). unfold enrich_with_github_metadata, mbind.
  rewrite Hrun. simpl. rewrite app_nil_r.
  split; [destruct i; reflexivity|exact Hsteps].
Qed.

(** The remote state and the labels reached by [enrich_labels] do not
    depend on the answers of [create_label]. *)
Lemma enrich_labels_create_answer {St Issue} (c c' : client St Issue)
  (Hd : differ_in_create_answer c c') (repo : option string)
  (ls acc : list string) (s : St) :
  fst (fst (enrich_labels c repo ls acc s))
    = fst (fst (enrich_labels c' repo ls acc s)) /\
  snd (enrich_labels c repo ls acc s) = snd (enrich_labels c' repo ls acc s).
Proof.
  destruct Hd as (_ & Hgl & Hcl & _).
  revert acc s. induction ls as [|l ls IH]; intros acc s; [split; reflexivity|].
  simpl. unfold mbind, call_get_label. simpl. rewrite <- (Hgl s repo l).
  destruct (get_label c s repo l).
  - unfold mret. simpl. destruct (enrich_labels c repo ls (acc ++ [l]) s) as [[s1 t1] r1] eqn:E1.
    destruct (enrich_labels c' repo ls (acc ++ [l]) s) as [[s2 t2] r2] eqn:E2.
    destruct (IH (acc ++ [l]) s) as [IH1 IH2]. rewrite E1, E2 in *.
    simpl in *. split; congruence.
  - unfold call_create_label. simpl. specialize (Hcl s repo l).
    destruct (create_label c s repo l) as [s1 ok1], (create_label c' s repo l) as [s1' ok1'].
    simpl in Hcl. subst s1'. simpl.
    destruct (enrich_labels c repo ls (acc ++ [l]) s1) as [[s2 t2] r2] eqn:E1.
    destruct (enrich_labels c' repo ls (acc ++ [l]) s1) as [[s3 t3] r3] eqn:E2.
    destruct (IH (acc ++ [l]) s1) as [IH1 IH2]. rewrite E1, E2 in *.
    simpl in *. split; congruence.
Qed.

Lemma enrich_with_github_metadata_create_answer {St Issue} (c c' : client St Issue)
  (Hd : differ_in_create_answer c c') (i : issue) (s : St) :
  fst (fst (enrich_with_github_metadata c i s))
    = fst (fst (enrich_with_github_metadata c' i s)) /\
  snd (enrich_with_github_metadata c i s) = snd (enrich_with_github_metadata c' i s).
Proof.
  destruct (enrich_labels_create_answer c c' Hd (repository i) (labels i) [] s)
    as [H1 H2].
  unfold enrich_with_github_metadata, mbind.
  destruct (enrich_labels c (repository i) (labels i) [] s) as [[s1 t1] r1].
  destruct (enrich_labels c' (repository i) (labels i) [] s) as [[s2 t2] r2].
  simpl in *. subst. destruct r2; split; reflexivity.
Qed.

Lemma commit_row_create_answer {St Issue} (c c' : client St Issue) (cfg : config)
  (Hd : differ_in_create_answer c c') (r : row) (s : St) :
  fst (fst (commit_row c cfg r s)) = fst (fst (commit_row c' cfg r s)) /\
  snd (commit_row c cfg r s) = snd (commit_row c' cfg r s).
Proof.
  pose proof Hd as (_ & _ & _ & Hci).
  unfold commit_row, process_row, mbind, lift_res.
  destruct (map_row_to_issue r _) as [i|e]; [|split; reflexivity].
  destruct (enrich_with_github_metadata_create_answer c c' Hd i s) as [H1 H2].
  destruct (enrich_with_github_metadata c i s) as [[s1 t1] r1].
  destruct (enrich_with_github_metadata c' i s) as [[s2 t2] r2].
  simpl in H1, H2. subst.
  destruct r2 as [i'|e]; [|split; reflexivity].
  unfold call_create_issue. rewrite Hci.
  destruct (create_issue c' _ _ _ _ _ _ _) as [s3 o]. simpl.
  split; reflexivity.
Qed.

Lemma import_rows_create_answer {St Issue} (c c' : client St Issue) (cfg : config)
  (Hd : differ_in_create_answer c c') (rows : list row) :
  forall cr errs s,
  fst (fst (import_rows c cfg rows cr errs s))
    = fst (fst (import_rows c' cfg rows cr errs s)) /\
  snd (import_rows c cfg rows cr errs s) = snd (import_rows c' cfg rows cr errs s).
Proof.
  induction rows as [|r rows IH]; intros cr errs s; [split; reflexivity|].
  simpl. unfold mbind.
  destruct (commit_row_create_answer c c' cfg Hd r s) as [H1 H2].
  destruct (commit_row c cfg r s) as [[s1 t1] r1].
  destruct (commit_row c' cfg r s) as [[s2 t2] r2].
  simpl in H1, H2. subst.
  destruct r2 as [o|e]; [|split; reflexivity].
  destruct o as [x|ti m].
  - destruct (IH (cr ++ [x]) errs s2) as [IH1 IH2].
    destruct (import_rows c cfg rows (cr ++ [x]) errs s2) as [[? ?] ?].
    destruct (import_rows c' cfg rows (cr ++ [x]) errs s2) as [[? ?] ?].
    simpl in *. subst. split; reflexivity.
  - destruct (IH cr (errs ++ [mkFailure ti m]) s2) as [IH1 IH2].
    destruct (import_rows c cfg rows cr (errs ++ [mkFailure ti m]) s2) as [[? ?] ?].
    destruct (import_rows c' cfg rows cr (errs ++ [mkFailure ti m]) s2) as [[? ?] ?].
    simpl in *. subst. split; reflexivity.
Qed.

(** The [except Exception] clause turns every exception of a row into a
    [Failed] outcome. *)
Lemma commit_row_ret {St Issue} (c : client St Issue) (cfg : config)
  (r : row) (s : St) :
  exists s1 t1 o, commit_row c cfg r s = (s1, t1, Ret o).
Proof.
  unfold commit_row.
  destruct (process_row c cfg r s) as [[s1 t1] [o|e]]; eauto.
Qed.

Lemma import_rows_trace {St Issue} (c : client St Issue) (cfg : config)
  (rows : list row) :
  forall cr errs s,
  exists s' t outs,
    import_rows c cfg rows cr errs s
      = (s', t, Ret (cr ++ created_of outs, errs ++ failures_of outs)) /\
    commit_trace c cfg s rows outs s' /\ length outs = length rows.
Proof.
  induction rows as [|r rows IH]; intros cr errs s.
  - exists s, [], []. simpl. rewrite !app_nil_r.
    split; [reflexivity|split; [constructor|reflexivity]].
  - destruct (commit_row_ret c cfg r s) as (s1 & t1 & o & Hrow).
    simpl. unfold mbind. rewrite Hrow.
    destruct o as [x|ti m].
    + destruct (IH (cr ++ [x]) errs s1) as (s' & t & outs & Hrun & Htr & Hlen).
      rewrite Hrun. exists s', (t1 ++ t), (Created x :: outs).
      simpl. rewrite <- app_assoc.
      split; [reflexivity|split; [econstructor; eauto|simpl; lia]].
    + destruct (IH cr (errs ++ [mkFailure ti m]) s1)
        as (s' & t & outs & Hrun & Htr & Hlen).
      rewrite Hrun. exists s', (t1 ++ t), (Failed ti m :: outs).
      simpl. rewrite <- app_assoc.
      split; [reflexivity|split; [econstructor; eauto|simpl; lia]].
Qed.

Lemma missing_cols_nil (fns : list string) :
  missing_cols fns = [] <-> header_superset fns.
Proof.
  unfold missing_cols, header_superset. split.
  - intros H col Hin. destruct (existsb (String.eqb col) fns) eqn:E.
    + apply existsb_exists in E as (x & Hx & Heq).
      apply String.eqb_eq in Heq. subst. exact Hx.
    + assert (In col (filter (fun c => negb (existsb (String.eqb c) fns))
                        REQUIRED_COLUMNS)) as Hf.
      { apply filter_In. rewrite E. auto. }
      rewrite H in Hf. destruct Hf.
  - intros H. destruct (filter _ REQUIRED_COLUMNS) as [|x t] eqn:E; [reflexivity|].
    assert (In x (x :: t)) as Hx by (left; reflexivity).
    rewrite <- E in Hx. apply filter_In in Hx as [Hin Hneg].
    apply H in Hin.
    assert (existsb (String.eqb x) fns = true) as Hex.
    { apply existsb_exists. exists x. split; [exact Hin|apply String.eqb_refl]. }
    rewrite Hex in Hneg. discriminate.
Qed.

Lemma validate_row_spec (n : nat) (r : row) (es : list finding) :
  validate_row n r = Ret es ->
  (es = [] <-> row_ok r) /\ Forall (fun e => f_row e = n) es.
Proof.
  unfold validate_row, row_ok, is_epic_or_task.
  destruct (get_default r "Title" "") as [t|] eqn:Ht; [|discriminate].
  intro H. injection H as <-. split.
  - split.
    + intro H. apply app_eq_nil in H as [H1 H2].
      split.
      * exists t. split; [reflexivity|].
        destruct (String.eqb_spec (Py.strip t) ""); [discriminate|assumption].
      * destruct (get r "Type") as [ty|]; [|discriminate].
        destruct (String.eqb_spec ty "Epic"); [left; congruence|].
        destruct (String.eqb_spec ty "Task"); [right; congruence|discriminate].
    + intros [(t' & Ht' & Hne) Hty]. injection Ht' as <-.
      destruct (String.eqb_spec (Py.strip t) ""); [contradiction|].
      destruct Hty as [-> | ->]; reflexivity.
  - apply Forall_app. split.
    + destruct (String.eqb (Py.strip t) ""); repeat constructor.
    + destruct (get r "Type") as [ty|];
        [destruct (String.eqb ty "Epic" || String.eqb ty "Task")|];
        repeat constructor.
Qed.

Lemma validate_format_from_spec (rows : list row) :
  forall n es, validate_format_from n rows = Ret es ->
  (es = [] <-> Forall row_ok rows) /\ Forall (fun e => n <= f_row e) es.
Proof.
  induction rows as [|r rows IH]; intros n es H.
  - injection H as <-. split; [split; auto|constructor].
  - simpl in H. unfold rbind in H.
    destruct (validate_row n r) as [e|m] eqn:E1; [|discriminate].
    destruct (validate_format_from (S n) rows) as [es'|m] eqn:E2; [|discriminate].
    injection H as <-.
    destruct (validate_row_spec n r e E1) as [Hr Hrow].
    destruct (IH (S n) es' E2) as [Hrs Hrows].
    split.
    + split.
      * intro H. apply app_eq_nil in H as [-> ->].
        constructor; [apply Hr|apply Hrs]; reflexivity.
      * intro H. inversion H as [|? ? H1 H2]; subst.
        rewrite (proj2 Hr H1), (proj2 Hrs H2). reflexivity.
    + apply Forall_app. split.
      * eapply Forall_impl; [|exact Hrow]. simpl. intros a ->. lia.
      * eapply Forall_impl; [|exact Hrows]. simpl. intros a Ha. lia.
Qed.

Lemma validate_readable (fns : list string) (body : list (list string))
  (rerr : option string) (vr : stage_result) :
  fns <> [] -> validate (Readable fns body rerr) = Ret vr ->
  exists ferrs,
    validate_format (parse_rows fns body) = Ret ferrs /\
    let errs := (match missing_cols fns with
                 | [] => []
                 | mc => [mkFinding 0 "headers"
                            ("Missing required columns: " ++ Py.join_comma mc)%string
                            None]
                 end ++
                 match rerr with Some msg => [file_error msg] | None => [] end)
                ++ ferrs in
    vr = mkStage (Nat.eqb (length errs) 0) (length (parse_rows fns body)) errs []
           (parse_rows fns body).
Proof.
  intros Hne H. destruct fns as [|h fns]; [contradiction|].
  unfold validate, read_csv in H. unfold rbind in H.
  destruct (validate_format (parse_rows (h :: fns) body)) as [ferrs|m] eqn:E;
    [|discriminate].
  injection H as <-. exists ferrs. split; [reflexivity|].
  destruct (missing_cols (h :: fns)); reflexivity.
Qed.

(** * The claims *)

(** ** Validate stage *)

(** C1 (as amended).  When [ImportPipeline.validate] returns a result (it
    raises on a row whose Title cell is [None]), that result is valid exactly
    when the file was read without an exception, the declared header set
    contains all required fields, and every retained row has a non-empty
    trimmed Title and a Type that is exactly ['Epic'] or ['Task']. *)
Theorem validate_valid_iff (f : csv_file) (vr : stage_result)
  (Hv : validate f = Ret vr) :
  valid vr = true <->
  read_clean f /\ header_superset (declared_headers f) /\ Forall row_ok (data vr).
Proof.
  destruct f as [msg|fns body rerr].
  - cbv [validate read_csv rbind validate_format validate_format_from] in Hv.
    injection Hv as <-. simpl. split; [discriminate|intros [[] _]].
  - destruct fns as [|h t].
    + cbv [validate read_csv rbind validate_format validate_format_from] in Hv.
      injection Hv as <-. simpl. split; [discriminate|].
      intros [_ [Hs _]]. destruct (Hs "Title"); simpl; auto.
    + destruct (validate_readable (h :: t) body rerr vr ltac:(discriminate) Hv)
        as (ferrs & E & ->).
      destruct (validate_format_from_spec _ 2 ferrs E) as [Hf _].
      simpl valid. simpl data. simpl declared_headers.
      pose proof (missing_cols_nil (h :: t)) as Hm.
      destruct (missing_cols (h :: t)) as [|x xs];
        destruct rerr as [m|]; simpl.
      * split; [discriminate|intros [[] _]].
      * rewrite Nat.eqb_eq, length_zero_iff_nil, Hf.
        split; [intro H; split; [exact I|split; [apply Hm; reflexivity|exact H]]|].
        intros (_ & _ & H). exact H.
      * split; [discriminate|intros [[] _]].
      * split; [discriminate|].
        intros (_ & Hs & _). apply Hm in Hs. discriminate.
Qed.

Lemma validate_valid_iff_witness :
  exists vr,
    validate (Readable HEADER [["Write docs"; "d"; "Task"; "docs"; ""; ""]] None)
      = Ret vr /\
    (valid vr = true <->
     read_clean (Readable HEADER [["Write docs"; "d"; "Task"; "docs"; ""; ""]] None) /\
     header_superset (declared_headers
        (Readable HEADER [["Write docs"; "d"; "Task"; "docs"; ""; ""]] None)) /\
     Forall row_ok (data vr)).
Proof.
  eexists. split; [reflexivity|].
  apply validate_valid_iff. reflexivity.
Defined.

(** C1 as stated fails: a file whose header and rows are all well formed but
    whose reading stops on an exception (here a decoding error after the
    first data row) gives an invalid result. *)
Lemma validate_valid_iff_counterexample :
  exists vr,
    validate (Readable HEADER [["Write docs"; "d"; "Task"; ""; ""; ""]]
                (Some "'utf-8' codec can't decode byte 0xff"))
      = Ret vr /\
    ~ (valid vr = true <->
       header_superset HEADER /\ Forall row_ok (data vr)).
Proof.
  eexists. split; [reflexivity|]. simpl. intros [_ H].
  assert (false = true) as Hf; [|discriminate].
  apply H. split.
  - intros col Hin. exact Hin.
  - constructor; [|constructor]. split.
    + eexists. split; [reflexivity|]. vm_compute. discriminate.
    + right. reflexivity.
Qed.

Lemma validate_format_rows_from_two (rows : list row) (ferrs : list finding) :
  validate_format rows = Ret ferrs ->
  filter (fun e => Nat.eqb (f_row e) 0) ferrs = [].
Proof.
  intro H. destruct (validate_format_from_spec rows 2 ferrs H) as [_ Hge].
  clear H. induction Hge as [|e es He _ IH]; [reflexivity|].
  simpl. destruct (Nat.eqb_spec (f_row e) 0); [lia|exact IH].
Qed.

(** C7 (as amended).  For a file read without an exception whose header
    row is not empty and lacks at least one required column, a result of
    Validate is invalid and has exactly one row-0 finding, which cites the
    missing columns: the required columns absent from the header, and only
    those.  The data rows are still parsed, retained in [data] and counted
    in [rows_count]. *)
Theorem validate_missing_columns (fns : list string) (body : list (list string))
  (vr : stage_result)
  (Hne : fns <> [])
  (Hm : missing_cols fns <> [])
  (Hv : validate (Readable fns body None) = Ret vr) :
  valid vr = false /\
  filter (fun e => Nat.eqb (f_row e) 0) (errors vr)
    = [mkFinding 0 "headers"
         ("Missing required columns: " ++ Py.join_comma (missing_cols fns))%string
         None] /\
  (forall col, In col (missing_cols fns) <-> In col REQUIRED_COLUMNS /\ ~ In col fns) /\
  data vr = parse_rows fns body /\
  rows_count vr = length (data vr).
Proof.
  split; [|split; [|split]].
  - destruct (validate_readable fns body None vr Hne Hv) as (ferrs & E & ->).
    destruct (missing_cols fns); [congruence|]. reflexivity.
  - destruct (validate_readable fns body None vr Hne Hv) as (ferrs & E & ->).
    simpl. destruct (missing_cols fns) as [|c cs]; [congruence|]. simpl.
    rewrite (validate_format_rows_from_two _ _ E). reflexivity.
  - intro col. unfold missing_cols. rewrite filter_In.
    split; intros [H1 H2]; split; try exact H1.
    + intro Hin. apply Bool.negb_true_iff in H2.
      assert (existsb (String.eqb col) fns = true) as Ht
        by (apply existsb_exists; exists col; split; [exact Hin|apply String.eqb_refl]).
      congruence.
    + apply Bool.negb_true_iff. destruct (existsb (String.eqb col) fns) eqn:Ht;
        [|reflexivity].
      apply existsb_exists in Ht as (x & Hx & Heq). apply String.eqb_eq in Heq.
      subst. contradiction.
  - destruct (validate_readable fns body None vr Hne Hv) as (ferrs & E & ->).
    split; reflexivity.
Qed.

Lemma validate_missing_columns_witness :
  (["Title"; "Description"; "Type"; "Labels"; "Assignee"] <> [] /\
   missing_cols ["Title"; "Description"; "Type"; "Labels"; "Assignee"] <> []) /\
  exists vr,
    validate (Readable ["Title"; "Description"; "Type"; "Labels"; "Assignee"]
                [["Write docs"; "d"; "Task"; ""; ""]] None) = Ret vr /\
    (valid vr = false /\
     filter (fun e => Nat.eqb (f_row e) 0) (errors vr)
       = [mkFinding 0 "headers"
            ("Missing required columns: "
               ++ Py.join_comma (missing_cols ["Title"; "Description"; "Type"; "Labels";
                                               "Assignee"]))%string None] /\
     (forall col, In col (missing_cols ["Title"; "Description"; "Type"; "Labels";
                                        "Assignee"]) <->
                  In col REQUIRED_COLUMNS /\
                  ~ In col ["Title"; "Description"; "Type"; "Labels"; "Assignee"]) /\
     data vr = parse_rows ["Title"; "Description"; "Type"; "Labels"; "Assignee"]
                 [["Write docs"; "d"; "Task"; ""; ""]] /\
     rows_count vr = length (data vr)).
Proof.
  assert (H1 : ["Title"; "Description"; "Type"; "Labels"; "Assignee"] <> [])
    by discriminate.
  assert (H2 : missing_cols ["Title"; "Description"; "Type"; "Labels"; "Assignee"] <> [])
    by (vm_compute; discriminate).
  split; [split; [exact H1|exact H2]|].
  eexists. split; [reflexivity|].
  apply validate_missing_columns; [exact H1|exact H2|reflexivity].
Defined.

(** C7 as stated fails: with Milestone missing, the one data row is still
    retained in the stage result. *)
Lemma validate_missing_milestone_counterexample :
  exists vr,
    validate (Readable ["Title"; "Description"; "Type"; "Labels"; "Assignee"]
                [["Write docs"; "d"; "Task"; ""; ""]] None) = Ret vr /\
    valid vr = false /\ length (data vr) = 1 /\ rows_count vr = 1.
Proof.
  eexists. split; [reflexivity|]. repeat split.
Qed.

Lemma parse_rows_skip (fns : list string) (pre post : list (list string))
  (record : list string) :
  any_values (make_row fns record) = false ->
  parse_rows fns (pre ++ record :: post) = parse_rows fns (pre ++ post).
Proof.
  intro He. unfold parse_rows.
  rewrite !filter_app, !map_app, !filter_app. simpl.
  destruct (nonblank record); simpl; [rewrite He|]; reflexivity.
Qed.

Lemma read_csv_rows_truthy (f : csv_file) (r : row) :
  In r (fst (read_csv f)) -> any_values r = true.
Proof.
  destruct f as [msg|[|h t] body rerr]; simpl; try (intros []).
  unfold parse_rows. intro Hin. apply filter_In in Hin. apply Hin.
Qed.

(** C10.  A data record whose parsed row has no truthy value (all its
    cells empty) changes nothing: the Validate result, and so its data, its
    row count and its findings, and every later stage that reads only that
    result, are those of the file without the record; and no retained row is
    such a row. *)
Theorem validate_skips_empty_row (fns : list string)
  (pre post : list (list string)) (rerr : option string) (record : list string)
  (He : any_values (make_row fns record) = false) :
  validate (Readable fns (pre ++ record :: post) rerr)
    = validate (Readable fns (pre ++ post) rerr) /\
  (forall vr r, validate (Readable fns (pre ++ record :: post) rerr) = Ret vr ->
                In r (data vr) -> any_values r = true).
Proof.
  split.
  - destruct fns as [|h t]; [reflexivity|].
    unfold validate, read_csv. rewrite (parse_rows_skip _ pre post record He).
    reflexivity.
  - intros vr r Hv Hin. unfold validate in Hv.
    destruct (read_csv _) as [rows errs] eqn:E. unfold rbind in Hv.
    destruct (validate_format rows); [|discriminate].
    injection Hv as <-. simpl in Hin.
    apply (read_csv_rows_truthy (Readable fns (pre ++ record :: post) rerr)).
    rewrite E. exact Hin.
Qed.

Lemma validate_skips_empty_row_witness :
  any_values (row_of [""; ""; ""; ""; ""; ""]) = false /\
  (validate (Readable HEADER ([["A"; "d"; "Task"; ""; ""; ""]] ++
                              [""; ""; ""; ""; ""; ""] :: [["B"; "d"; "Bug"; ""; ""; ""]])
               None)
     = validate (Readable HEADER ([["A"; "d"; "Task"; ""; ""; ""]] ++
                                  [["B"; "d"; "Bug"; ""; ""; ""]]) None) /\
   (forall vr r,
      validate (Readable HEADER ([["A"; "d"; "Task"; ""; ""; ""]] ++
                                 [""; ""; ""; ""; ""; ""] :: [["B"; "d"; "Bug"; ""; ""; ""]])
                  None) = Ret vr ->
      In r (data vr) -> any_values r = true)).
Proof.
  split; [reflexivity|].
  apply validate_skips_empty_row. reflexivity.
Defined.

(** C8 (a defect).  Row numbers are positions in the filtered list of
    rows, not lines of the file.  In this file line 1 is the header, line 2
    a record of empty cells (dropped by [read_csv]) and line 3 the row with
    Type 'Bug'; its finding carries row 2. *)
Lemma validate_row_number_after_skipped_row :
  validate (Readable HEADER [[""; ""; ""; ""; ""; ""];
                             ["Write docs"; "d"; "Bug"; ""; ""; ""]] None)
  = Ret (mkStage false 1
           [mkFinding 2 "Type" "Type must be 'Epic' or 'Task', got 'Bug'" None]
           [] [row_of ["Write docs"; "d"; "Bug"; ""; ""; ""]]).
Proof. reflexivity. Qed.

(** C9 (a defect).  In a file whose Title column is not the first one, a
    short record leaves the Title cell [None]; [row.get('Title', '').strip()]
    then raises, so Validate returns no result and the Type finding of the
    first row (reported when that row is alone) is lost. *)
Lemma validate_short_row_raises :
  validate (Readable ["Type"; "Description"; "Labels"; "Assignee"; "Milestone"; "Title"]
              [["Bug"; "d"; ""; ""; ""; "Write docs"]; ["Task"; "d"]] None)
    = Exc "'NoneType' object has no attribute 'strip'" /\
  validate (Readable ["Type"; "Description"; "Labels"; "Assignee"; "Milestone"; "Title"]
              [["Bug"; "d"; ""; ""; ""; "Write docs"]] None)
    = Ret (mkStage false 1
             [mkFinding 2 "Type" "Type must be 'Epic' or 'Task', got 'Bug'" None] []
             [make_row ["Type"; "Description"; "Labels"; "Assignee"; "Milestone"; "Title"]
                ["Bug"; "d"; ""; ""; ""; "Write docs"]]).
Proof. split; reflexivity. Qed.

(** ** Item mapper and enrichment applier *)

(** C3.  The labels of a mapped item are, as a set without duplicates, the
    Labels text split on ';', each part trimmed, empty parts dropped, plus
    the tag ['ask-myuni'], which is always present; for the Labels text
    ["bug;  ui ;bug"] they are exactly ["bug"], ["ui"] and ['ask-myuni']. *)
Theorem map_row_to_issue_label_set (r : row) (repo : option string) (i : issue)
  (Hmap : map_row_to_issue r repo = Ret i) :
  (forall l, In l (labels i) <->
             In l (claimed_label_parts (labels_text r)) \/ l = "ask-myuni") /\
  NoDup (labels i) /\
  In "ask-myuni" (labels i) /\
  (labels_text r = "bug;  ui ;bug" ->
   Permutation (labels i) ["bug"; "ui"; "ask-myuni"]).
Proof.
  pose proof (map_row_to_issue_labels r repo i Hmap) as Hl.
  rewrite parse_labels_text in Hl.
  assert (forall l, In l (labels i) <->
                    In l (claimed_label_parts (labels_text r)) \/ l = "ask-myuni")
    as Hset.
  { intro l. rewrite Hl, dedup_In, in_app_iff. simpl.
    split; intros [H|H]; auto; destruct H as [H|[]]; auto. }
  split; [exact Hset|]. split; [rewrite Hl; apply dedup_NoDup|].
  split; [apply Hset; right; reflexivity|].
  intro Ht. rewrite Hl, Ht. apply Permutation_refl.
Qed.

Lemma map_row_to_issue_label_set_witness :
  map_row_to_issue (row_of ["Login page"; "d"; "Task"; "bug;  ui ;bug"; ""; ""])
    (Some "askmyuni")
    = Ret (mkIssue "Login page" "d" ["bug"; "ui"; "ask-myuni"] None None
             (Some "Task") (Some "askmyuni")) /\
  ((forall l, In l ["bug"; "ui"; "ask-myuni"] <->
     In l (claimed_label_parts
             (labels_text (row_of ["Login page"; "d"; "Task"; "bug;  ui ;bug"; ""; ""])))
     \/ l = "ask-myuni") /\
   NoDup ["bug"; "ui"; "ask-myuni"] /\
   In "ask-myuni" ["bug"; "ui"; "ask-myuni"] /\
   (labels_text (row_of ["Login page"; "d"; "Task"; "bug;  ui ;bug"; ""; ""])
      = "bug;  ui ;bug" ->
    Permutation ["bug"; "ui"; "ask-myuni"] ["bug"; "ui"; "ask-myuni"])).
Proof.
  split; [reflexivity|].
  apply (map_row_to_issue_label_set
           (row_of ["Login page"; "d"; "Task"; "bug;  ui ;bug"; ""; ""])
           (Some "askmyuni")
           (mkIssue "Login page" "d" ["bug"; "ui"; "ask-myuni"] None None
              (Some "Task") (Some "askmyuni"))).
  reflexivity.
Defined.

(** C4.  [enrich_with_github_metadata] returns the item it is given: every
    field, the labels included (none removed, order kept), is unchanged;
    so running it a second time, from the remote state the first run left,
    gives the same item and label set again. *)
Theorem enrich_with_github_metadata_idempotent {St Issue}
  (c : client St Issue) (i : issue) (s : St) :
  (exists s1 t1, enrich_with_github_metadata c i s = (s1, t1, Ret i)) /\
  (exists s2 t2,
      mbind (enrich_with_github_metadata c i) (enrich_with_github_metadata c) s
      = (s2, t2, Ret i)).
Proof.
  destruct (enrich_with_github_metadata_run c i s) as (s1 & t1 & H1 & _).
  split; [exists s1, t1; exact H1|].
  destruct (enrich_with_github_metadata_run c i s1) as (s2 & t2 & H2 & _).
  exists s2, (t1 ++ t2). unfold mbind. rewrite H1, H2. reflexivity.
Qed.

(** C5.  For each label of the item, [enrich_with_github_metadata] looks the
    label up and, when the lookup answers "absent", sends one create-label
    request and goes on with the next label whatever that request answers;
    the item, labels included, comes back unchanged.  The answer of a
    create-label request (a failure, an "already exists" conflict) never
    matters: two remote services that differ only in that answer give the
    same result of [import_to_github] (no extra [Failed] outcome, no
    exception) and the same remote state. *)
Theorem enrich_label_creation_best_effort {St Issue} (c c' : client St Issue)
  (cfg : config) (Hd : differ_in_create_answer c c') :
  (forall i s, exists s' t,
      enrich_with_github_metadata c i s = (s', t, Ret i) /\
      label_steps (repository i) (labels i) t) /\
  (forall er s,
      fst (fst (import_to_github c cfg er s))
        = fst (fst (import_to_github c' cfg er s)) /\
      snd (import_to_github c cfg er s) = snd (import_to_github c' cfg er s)).
Proof.
  split; [intros i s; apply enrich_with_github_metadata_run|].
  intros er s. unfold import_to_github.
  destruct (negb (valid er)); [split; reflexivity|].
  unfold mbind.
  destruct (import_rows_create_answer c c' cfg Hd (data er) [] [] s) as [H1 H2].
  destruct (import_rows c cfg (data er) [] [] s) as [[s1 t1] r1].
  destruct (import_rows c' cfg (data er) [] [] s) as [[s2 t2] r2].
  simpl in H1, H2. subst. destruct r2; split; reflexivity.
Qed.

Lemma enrich_label_creation_best_effort_witness :
  differ_in_create_answer (demo_client true) (demo_client false) /\
  ((forall i s, exists s' t,
       enrich_with_github_metadata (demo_client true) i s = (s', t, Ret i) /\
       label_steps (repository i) (labels i) t) /\
   (forall er s,
       fst (fst (import_to_github (demo_client true) demo_config er s))
         = fst (fst (import_to_github (demo_client false) demo_config er s)) /\
       snd (import_to_github (demo_client true) demo_config er s)
         = snd (import_to_github (demo_client false) demo_config er s))).
Proof.
  split.
  - repeat split; intros; reflexivity.
  - apply enrich_label_creation_best_effort.
    repeat split; intros; reflexivity.
Defined.

(** ** Import stage *)

(** C2 (as amended).  On a valid result, [import_to_github] runs every row:
    each row yields exactly one outcome, [Created] or [Failed], computed
    from the remote state the earlier rows left, whatever happened on them
    (a rejected creation or an exception is caught at the row and the loop
    goes on).  The created issues are listed in input order and the
    failures in input order, in two separate lists. *)
Theorem import_to_github_every_row {St Issue} (c : client St Issue)
  (cfg : config) (er : stage_result) (s : St) (Hv : valid er = true) :
  exists s' t outs,
    commit_trace c cfg s (data er) outs s' /\
    length outs = length (data er) /\
    import_to_github c cfg er s
      = (s', t, Ret (inr (mkImport (Nat.eqb (length (failures_of outs)) 0)
                            (created_of outs) (failures_of outs)
                            (length (created_of outs))))).
Proof.
  destruct (import_rows_trace c cfg (data er) [] [] s)
    as (s' & t & outs & Hrun & Htr & Hlen).
  exists s', (t ++ []), outs. split; [exact Htr|]. split; [exact Hlen|].
  unfold import_to_github. rewrite Hv. simpl. unfold mbind. rewrite Hrun.
  reflexivity.
Qed.

Lemma import_to_github_every_row_witness :
  valid (valid_stage [row_of ["fail"; "d"; "Task"; ""; ""; ""];
                      row_of ["Write docs"; "d"; "Task"; "docs"; ""; ""]]) = true /\
  exists s' t outs,
    commit_trace (demo_client false) demo_config 0
      (data (valid_stage [row_of ["fail"; "d"; "Task"; ""; ""; ""];
                          row_of ["Write docs"; "d"; "Task"; "docs"; ""; ""]]))
      outs s' /\
    length outs = length (data (valid_stage [row_of ["fail"; "d"; "Task"; ""; ""; ""];
                          row_of ["Write docs"; "d"; "Task"; "docs"; ""; ""]])) /\
    import_to_github (demo_client false) demo_config
      (valid_stage [row_of ["fail"; "d"; "Task"; ""; ""; ""];
                    row_of ["Write docs"; "d"; "Task"; "docs"; ""; ""]]) 0
      = (s', t, Ret (inr (mkImport (Nat.eqb (length (failures_of outs)) 0)
                            (created_of outs) (failures_of outs)
                            (length (created_of outs))))).
Proof.
  split; [reflexivity|].
  apply import_to_github_every_row. reflexivity.
Defined.

(** C2 as stated fails: the result does not record the order of Created
    and Failed outcomes.  A batch of a rejected row and an accepted row,
    in either order, gives the same result, so no reading of the result
    lists the outcomes in the order of both batches. *)
Lemma import_to_github_order_counterexample :
  ~ (exists order : res (stage_result + import_result nat) -> list row,
       order (snd (import_to_github (demo_client true) demo_config
                     (valid_stage [row_of ["fail"; "d"; "Task"; ""; ""; ""];
                                   row_of ["Write docs"; "d"; "Task"; ""; ""; ""]]) 0))
         = [row_of ["fail"; "d"; "Task"; ""; ""; ""];
            row_of ["Write docs"; "d"; "Task"; ""; ""; ""]] /\
       order (snd (import_to_github (demo_client true) demo_config
                     (valid_stage [row_of ["Write docs"; "d"; "Task"; ""; ""; ""];
                                   row_of ["fail"; "d"; "Task"; ""; ""; ""]]) 0))
         = [row_of ["Write docs"; "d"; "Task"; ""; ""; ""];
            row_of ["fail"; "d"; "Task"; ""; ""; ""]]).
Proof.
  intros (order & H1 & H2).
  match type of H2 with order ?x = _ => match type of H1 with order ?y = _ =>
    assert (x = y) as E by (vm_compute; reflexivity) end end.
  rewrite E, H1 in H2. vm_compute in H2. discriminate.
Qed.

(** ** The [import] command *)

Lemma enrich_keeps_valid {St Issue} (c : client St Issue) (cfg : config)
  (vr : stage_result) (s s' : St) (t : list event) (er : stage_result) :
  enrich c cfg vr s = (s', t, Ret er) -> valid er = valid vr.
Proof.
  unfold enrich, mbind, mret.
  destruct (valid vr) eqn:Ev; simpl; [|intro H; injection H as _ _ <-; exact Ev].
  destruct (validate_assignees c (data vr) s) as [[s1 t1] [w1|e]];
    [|intro H; discriminate H].
  destruct (labels_pass c (rr_primary cfg) (data vr) s1) as [[s2 t2] [w2|e]];
    [|intro H; discriminate H].
  destruct (labels_pass c (rr_secondary cfg) (data vr) s2) as [[s3 t3] [w3|e]];
    [|intro H; discriminate H].
  intro H. injection H as _ _ <-. reflexivity.
Qed.

Lemma run_main_cases {St Issue} (c : client St Issue) (cfg : config)
  (f : csv_file) (confirm : bool) (response : option string) (s : St) :
  run_main c cfg f confirm response s =
  match validate f with
  | Exc e => Raised e
  | Ret vr =>
      if negb (valid vr) then Exited 1
      else
        match enrich c cfg vr s with
        | (_, _, Exc e) => Raised e
        | (s1, _, Ret er) =>
            match (if confirm then Ret true
                   else match response with
                        | None => Exc "EOF when reading a line"
                        | Some a => Ret (String.eqb (Py.lower a) "yes")
                        end) with
            | Exc e => Raised e
            | Ret false => Exited 0
            | Ret true =>
                match snd (import_to_github c cfg er s1) with
                | Exc e => Raised e
                | Ret _ => Finished
                end
            end
        end
  end.
Proof.
  unfold run_main, main_import, mbind, lift_res, mret.
  destruct (validate f) as [vr|e]; [|reflexivity].
  destruct (negb (valid vr)); [reflexivity|].
  destruct (enrich c cfg vr s) as [[s1 t1] [er|e]]; [|reflexivity].
  destruct confirm; [|destruct response as [a|]; [|reflexivity]].
  - simpl. destruct (import_to_github c cfg er s1) as [[s2 t2] [x|e]]; reflexivity.
  - destruct (String.eqb (Py.lower a) "yes"); [|reflexivity].
    simpl. destruct (import_to_github c cfg er s1) as [[s2 t2] [x|e]]; reflexivity.
Qed.

(** C6 (as amended).  When no exception escapes [main] (none raised by
    Validate or Enrich on a row with a [None] cell, no end of input at the
    prompt), the [import] command exits with a non-zero status exactly when
    the Validate result is invalid; in particular a declined confirmation
    (an answer that is not 'yes' once lower-cased) exits with status 0, and
    the commit failures never change the status.  Enrich never turns a
    valid result invalid, so it adds no case. *)
Theorem main_import_exit_status {St Issue} (c : client St Issue) (cfg : config)
  (f : csv_file) (confirm : bool) (response : option string) (s : St)
  (Hnr : forall m, run_main c cfg f confirm response s <> Raised m) :
  (exit_status (run_main c cfg f confirm response s) <> 0 <->
   exists vr, validate f = Ret vr /\ valid vr = false) /\
  (forall vr a, validate f = Ret vr -> valid vr = true -> confirm = false ->
   response = Some a -> Py.lower a <> "yes" ->
   run_main c cfg f confirm response s = Exited 0) /\
  (forall vr s1 s2 t er, enrich c cfg vr s1 = (s2, t, Ret er) ->
   valid er = valid vr).
Proof.
  rewrite run_main_cases in *.
  split; [|split].
  - destruct (validate f) as [vr|e] eqn:Ev; [|exfalso; eapply Hnr; reflexivity].
    destruct (valid vr) eqn:Evv; simpl in *.
    + destruct (enrich c cfg vr s) as [[s1 t1] [er|e]];
        [|exfalso; eapply Hnr; reflexivity].
      destruct confirm; [|destruct response as [a|]];
        [|destruct (String.eqb (Py.lower a) "yes")|];
        try (exfalso; eapply Hnr; reflexivity);
        try (stage_not_invalid);
        destruct (snd (import_to_github c cfg er s1)) as [x|e];
        try (exfalso; eapply Hnr; reflexivity);
        stage_not_invalid.
    + split; [intros _; exists vr; split; [reflexivity|exact Evv]|intros _; discriminate].
  - intros vr a Ev Evv Hc Hr Hy. rewrite Ev, Evv in *. subst. simpl in *.
    destruct (enrich c cfg vr s) as [[s1 t1] [er|e]];
      [|exfalso; eapply Hnr; reflexivity].
    apply String.eqb_neq in Hy. rewrite Hy. reflexivity.
  - intros vr s1 s2 t er. apply enrich_keeps_valid.
Qed.

Lemma main_import_exit_status_witness :
  (forall m, run_main (demo_client true) demo_config
               (Readable HEADER [["Write docs"; "d"; "Task"; "docs"; ""; ""]] None)
               false (Some "no") 0 <> Raised m) /\
  ((exit_status (run_main (demo_client true) demo_config
                   (Readable HEADER [["Write docs"; "d"; "Task"; "docs"; ""; ""]] None)
                   false (Some "no") 0) <> 0 <->
    exists vr, validate (Readable HEADER [["Write docs"; "d"; "Task"; "docs"; ""; ""]] None)
                 = Ret vr /\ valid vr = false) /\
   (forall vr a,
      validate (Readable HEADER [["Write docs"; "d"; "Task"; "docs"; ""; ""]] None) = Ret vr ->
      valid vr = true -> false = false -> Some "no" = Some a -> Py.lower a <> "yes" ->
      run_main (demo_client true) demo_config
        (Readable HEADER [["Write docs"; "d"; "Task"; "docs"; ""; ""]] None)
        false (Some "no") 0 = Exited 0) /\
   (forall vr s1 s2 t er, enrich (demo_client true) demo_config vr s1 = (s2, t, Ret er) ->
      valid er = valid vr)).
Proof.
  split; [intros m; vm_compute; discriminate|].
  apply main_import_exit_status. intros m; vm_compute; discriminate.
Defined.

(** C6 as stated fails: a well-formed file whose import the caller declines
    at the prompt (answer "no") ends with [sys.exit(0)], status 0. *)
Lemma main_import_decline_counterexample :
  (exists vr, validate (Readable HEADER [["Write docs"; "d"; "Task"; "docs"; ""; ""]] None)
                = Ret vr /\ valid vr = true) /\
  run_main (demo_client true) demo_config
    (Readable HEADER [["Write docs"; "d"; "Task"; "docs"; ""; ""]] None)
    false (Some "no") 0 = Exited 0 /\
  exit_status (run_main (demo_client true) demo_config
                 (Readable HEADER [["Write docs"; "d"; "Task"; "docs"; ""; ""]] None)
                 false (Some "no") 0) = 0.
Proof.
  split; [eexists; split; reflexivity|]. split; vm_compute; reflexivity.
Qed.

(** * Further properties of the code *)

(** ** The rows of [csv.DictReader] *)

Lemma dict_get_set (d : list (string * option string)) (k k' : string)
  (v : option string) :
  dict_get (dict_set d k v) k' = if String.eqb k' k then Some v else dict_get d k'.
Proof.
  induction d as [|[k0 v0] t IH]; simpl.
  - destruct (String.eqb k' k); reflexivity.
  - destruct (String.eqb_spec k k0) as [->|Hne]; simpl.
    + destruct (String.eqb k' k0); reflexivity.
    + rewrite IH. destruct (String.eqb_spec k' k) as [->|]; [|reflexivity].
      apply String.eqb_neq in Hne. rewrite Hne. reflexivity.
Qed.

Lemma fold_set_some_other (fns rec : list string) (d : list (string * option string))
  (k : string) :
  ~ In k fns ->
  dict_get (fold_left (fun d kv => dict_set d (fst kv) (Some (snd kv)))
              (combine fns rec) d) k = dict_get d k.
Proof.
  revert rec d. induction fns as [|f fns IH]; intros rec d Hk; [reflexivity|].
  destruct rec as [|x rec]; [reflexivity|]. simpl.
  rewrite IH by (intro H; apply Hk; right; exact H).
  rewrite dict_get_set. destruct (String.eqb_spec k f) as [->|]; [|reflexivity].
  exfalso. apply Hk. left. reflexivity.
Qed.

Lemma fold_set_some_at (fns rec : list string) (d : list (string * option string))
  (i : nat) :
  NoDup fns -> i < length fns -> i < length rec ->
  dict_get (fold_left (fun d kv => dict_set d (fst kv) (Some (snd kv)))
              (combine fns rec) d) (nth i fns "") = Some (Some (nth i rec "")).
Proof.
  revert rec d i. induction fns as [|f fns IH]; intros rec d i Hnd Hi Hr;
    [simpl in Hi; lia|].
  destruct rec as [|x rec]; [simpl in Hr; lia|].
  inversion Hnd as [|? ? Hf Hnd']; subst. simpl.
  destruct i as [|i].
  - rewrite fold_set_some_other by exact Hf.
    rewrite dict_get_set, String.eqb_refl. reflexivity.
  - apply IH; [exact Hnd'|simpl in *; lia|simpl in *; lia].
Qed.

Lemma fold_set_none (ks : list string) (d : list (string * option string))
  (k : string) :
  dict_get (fold_left (fun d k => dict_set d k None) ks d) k
  = if existsb (String.eqb k) ks then Some None else dict_get d k.
Proof.
  revert d. induction ks as [|k0 ks IH]; intro d; [reflexivity|].
  simpl. rewrite IH, dict_get_set.
  destruct (String.eqb k k0); simpl; [destruct (existsb _ ks)|]; reflexivity.
Qed.

Lemma existsb_eqb_In (k : string) (ks : list string) :
  existsb (String.eqb k) ks = true <-> In k ks.
Proof.
  rewrite existsb_exists. split.
  - intros (x & Hx & E). apply String.eqb_eq in E. subst. exact Hx.
  - intro H. exists k. split; [exact H|apply String.eqb_refl].
Qed.

Lemma nth_in_skipn (fns : list string) (lr i : nat) :
  NoDup fns -> i < length fns ->
  (In (nth i fns "") (skipn lr fns) <-> lr <= i).
Proof.
  intros Hnd Hi. split.
  - intro Hin. destruct (In_nth _ _ "" Hin) as (j & Hj & E).
    rewrite nth_skipn in E. rewrite length_skipn in Hj.
    apply (proj1 (NoDup_nth fns "") Hnd) in E; lia.
  - intro Hle. replace i with (lr + (i - lr)) at 1 by lia.
    rewrite <- nth_skipn. apply nth_In. rewrite length_skipn. lia.
Qed.

Lemma make_row_get_field (fns rec : list string) (i : nat) :
  NoDup fns -> i < length fns ->
  dict_get (cells (make_row fns rec)) (nth i fns "") = Some (nth_error rec i).
Proof.
  intros Hnd Hi. unfold make_row.
  destruct (Nat.ltb_spec (length fns) (length rec)) as [Hlt|Hge]; simpl.
  - rewrite fold_set_some_at by (auto; lia).
    rewrite (nth_error_nth' rec "") by lia. reflexivity.
  - destruct (Nat.ltb_spec (length rec) (length fns)) as [Hlt'|Hge']; simpl.
    + rewrite fold_set_none.
      destruct (existsb (String.eqb (nth i fns "")) (skipn (length rec) fns)) eqn:E.
      * apply existsb_eqb_In, nth_in_skipn in E; [|exact Hnd|exact Hi].
        symmetry. f_equal. apply nth_error_None. exact E.
      * assert (Hr : i < length rec).
        { destruct (Nat.lt_ge_cases i (length rec)) as [H|H]; [exact H|].
          exfalso. apply (nth_in_skipn fns (length rec) i Hnd Hi) in H.
          apply existsb_eqb_In in H. congruence. }
        rewrite fold_set_some_at by (auto; lia).
        rewrite (nth_error_nth' rec "") by lia. reflexivity.
    + rewrite fold_set_some_at by (auto; lia).
      rewrite (nth_error_nth' rec "") by lia. reflexivity.
Qed.

(** X1: with distinct field names, every field name is a key of the row
    [DictReader] builds, holding the cell at the same position of the record,
    or [None] when the record is too short. *)
Theorem make_row_lookup (fns rec : list string) (i : nat) :
  NoDup fns -> i < length fns ->
  dict_get (cells (make_row fns rec)) (nth i fns "") = Some (nth_error rec i).
Proof. apply make_row_get_field. Qed.

Lemma make_row_lookup_witness :
  (NoDup ["Title"; "Type"] /\ 1 < length ["Title"; "Type"]) /\
  dict_get (cells (make_row ["Title"; "Type"] ["Write docs"]))
    (nth 1 ["Title"; "Type"] "") = Some (nth_error ["Write docs"] 1).
Proof.
  assert (H : NoDup ["Title"; "Type"]).
  { constructor; [simpl; intros [H|[]]; discriminate|].
    constructor; [intros []|constructor]. }
  split; [split; [exact H|simpl; lia]|].
  apply make_row_lookup; [exact H|simpl; lia].
Defined.

(** A name that is not a field name is not a key of the row. *)
Lemma make_row_other_key (fns rec : list string) (k : string) :
  ~ In k fns -> dict_get (cells (make_row fns rec)) k = None.
Proof.
  intro Hk. unfold make_row.
  destruct (Nat.ltb (length fns) (length rec)); simpl.
  - rewrite fold_set_some_other by exact Hk. reflexivity.
  - destruct (Nat.ltb (length rec) (length fns)); simpl.
    + rewrite fold_set_none.
      destruct (existsb (String.eqb k) (skipn (length rec) fns)) eqn:E.
      * apply existsb_eqb_In in E. exfalso. apply Hk.
        rewrite <- (firstn_skipn (length rec) fns).
        apply in_or_app. right. exact E.
      * rewrite fold_set_some_other by exact Hk. reflexivity.
    + rewrite fold_set_some_other by exact Hk. reflexivity.
Qed.



(** ** [ImportPipeline.validate]: what it reports *)

Lemma validate_row_bounds (n : nat) (r : row) (es : list finding) :
  validate_row n r = Ret es ->
  length es <= 2 /\ Forall (format_finding_ok n (S n)) es.
Proof.
  unfold validate_row. destruct (get_default r "Title" "") as [t|]; [|discriminate].
  intro H. injection H as <-.
  assert (Hn : forall fld msg, fld = "Title" \/ fld = "Type" ->
            format_finding_ok n (S n) (mkFinding n fld msg None)).
  { intros fld msg Hf. unfold format_finding_ok. simpl. split; [lia|auto]. }
  destruct (String.eqb (Py.strip t) ""), (is_epic_or_task (get r "Type"));
    simpl; (split; [lia|]); repeat constructor; apply Hn; auto.
Qed.

Lemma validate_format_from_bounds (rows : list row) :
  forall n es, validate_format_from n rows = Ret es ->
  length es <= 2 * length rows /\
  Forall (format_finding_ok n (n + length rows)) es.
Proof.
  induction rows as [|r rows IH]; intros n es H.
  - injection H as <-. simpl. split; [lia|constructor].
  - simpl in H. unfold rbind in H.
    destruct (validate_row n r) as [e|m] eqn:E1; [|discriminate].
    destruct (validate_format_from (S n) rows) as [es'|m] eqn:E2; [|discriminate].
    injection H as <-.
    destruct (validate_row_bounds n r e E1) as [L1 F1].
    destruct (IH (S n) es' E2) as [L2 F2].
    split; [rewrite length_app; simpl; lia|].
    apply Forall_app. split.
    + eapply Forall_impl; [|exact F1]. unfold format_finding_ok. simpl.
      intros x (Hx & Hf). split; [lia|exact Hf].
    + eapply Forall_impl; [|exact F2]. unfold format_finding_ok. simpl.
      intros x (Hx & Hf). split; [lia|exact Hf].
Qed.

Lemma read_csv_findings (f : csv_file) :
  length (snd (read_csv f)) <= 2 /\ Forall read_finding_ok (snd (read_csv f)).
Proof.
  unfold read_finding_ok.
  destruct f as [msg|fns body rerr]; simpl.
  - split; [lia|repeat (apply Forall_cons || apply Forall_nil); simpl; intuition].
  - destruct fns as [|fn fns]; simpl;
      [split; [lia|repeat (apply Forall_cons || apply Forall_nil); simpl; intuition]|].
    destruct (missing_cols (fn :: fns)), rerr; simpl;
      (split; [lia|repeat (apply Forall_cons || apply Forall_nil); simpl; intuition]).
Qed.

(** X4: a result of [validate] counts its rows, carries no warnings, and
    each of its errors is either a row-0 [headers] or [file] finding or a
    [Title] or [Type] finding numbered between 2 and [rows_count + 1]; none
    has a severity, and there are at most two per row plus two. *)
Theorem validate_result_shape (f : csv_file) (vr : stage_result) :
  validate f = Ret vr ->
  rows_count vr = length (data vr) /\ warnings vr = [] /\
  length (errors vr) <= 2 + 2 * rows_count vr /\
  Forall (fun e => read_finding_ok e \/
                   format_finding_ok 2 (2 + rows_count vr) e) (errors vr).
Proof.
  unfold validate. pose proof (read_csv_findings f) as [L1 F1].
  destruct (read_csv f) as [rows errs]. simpl in *. unfold rbind.
  destruct (validate_format rows) as [ferrs|m] eqn:E; [|discriminate].
  intro H. injection H as <-. simpl.
  destruct (validate_format_from_bounds rows 2 ferrs E) as [L2 F2].
  split; [reflexivity|]. split; [reflexivity|].
  split; [rewrite length_app; lia|].
  apply Forall_app. split.
  - eapply Forall_impl; [|exact F1]. auto.
  - eapply Forall_impl; [|exact F2]. auto.
Qed.

Lemma validate_result_shape_witness :
  let f := Readable HEADER [["a"; "d"; "Bug"; ""; ""; ""]] None in
  let vr := mkStage false 1
              [mkFinding 2 "Type" "Type must be 'Epic' or 'Task', got 'Bug'" None]
              [] (parse_rows HEADER [["a"; "d"; "Bug"; ""; ""; ""]]) in
  validate f = Ret vr /\
  (rows_count vr = length (data vr) /\ warnings vr = [] /\
   length (errors vr) <= 2 + 2 * rows_count vr /\
   Forall (fun e => read_finding_ok e \/
                    format_finding_ok 2 (2 + rows_count vr) e) (errors vr)).
Proof.
  intros f vr.
  assert (H : validate f = Ret vr) by (vm_compute; reflexivity).
  split; [exact H|exact (validate_result_shape f vr H)].
Defined.

(** X5: [validate] raises exactly when a retained row has a [Title] key
    whose cell is [None] (a record shorter than the header), and the
    exception is then the [AttributeError] of [None.strip()]. *)
Theorem validate_raises_iff (f : csv_file) :
  (forall m, validate f = Exc m -> m = Py.none_strip_error) /\
  ((exists m, validate f = Exc m) <->
   Exists (fun r => dict_get (cells r) "Title" = Some None) (fst (read_csv f))).
Proof.
  assert (Hrow : forall n r m, validate_row n r = Exc m ->
                 m = Py.none_strip_error /\ dict_get (cells r) "Title" = Some None).
  { intros n r m. unfold validate_row, get_default.
    destruct (dict_get (cells r) "Title") as [[t|]|]; try discriminate.
    intro H. injection H as <-. split; reflexivity. }
  assert (Hrow' : forall n r, dict_get (cells r) "Title" = Some None ->
                  validate_row n r = Exc Py.none_strip_error).
  { intros n r H. unfold validate_row, get_default. rewrite H. reflexivity. }
  assert (Hfmt : forall rows n,
    (forall m, validate_format_from n rows = Exc m -> m = Py.none_strip_error) /\
    ((exists m, validate_format_from n rows = Exc m) <->
     Exists (fun r => dict_get (cells r) "Title" = Some None) rows)).
  { induction rows as [|r rows IH]; intro n.
    - simpl. split; [discriminate|].
      split; [intros [m H]; discriminate|intro H; inversion H].
    - simpl. unfold rbind.
      destruct (validate_row n r) as [e|m] eqn:E1.
      + destruct (IH (S n)) as [IH1 IH2].
        destruct (validate_format_from (S n) rows) as [es|m] eqn:E2.
        * split; [discriminate|]. split; [intros [m H]; discriminate|].
          intro H. inversion H as [? ? Hr|? ? Hx]; subst.
          -- rewrite (Hrow' n r Hr) in E1. discriminate.
          -- apply IH2 in Hx as [m Hm]. discriminate.
        * split; [intros m' H; injection H as <-; apply IH1; reflexivity|].
          split; [intros _; apply Exists_cons_tl, IH2; exists m; reflexivity|].
          intros _. exists m. reflexivity.
      + destruct (Hrow n r m E1) as [Hm Hr].
        split; [intros m' H; injection H as <-; exact Hm|].
        split; [intros _; apply Exists_cons_hd; exact Hr|].
        intros _. exists m. reflexivity. }
  unfold validate. destruct (read_csv f) as [rows errs]. simpl.
  destruct (Hfmt rows 2) as [H1 H2]. unfold validate_format, rbind.
  destruct (validate_format_from 2 rows) as [es|m] eqn:E.
  - split; [discriminate|]. rewrite <- H2.
    split; intros [m H]; congruence.
  - split; [intros m' H; injection H as <-; apply H1; reflexivity|].
    rewrite <- H2. split; intros _; exists m; reflexivity.
Qed.

(** ** [ImportPipeline.enrich]: lookups only *)

Lemma read_only_ret {St A} (P : A -> Prop) (a : A) :
  P a -> read_only (St := St) P (mret a).
Proof.
  intros H s. simpl. split; [reflexivity|]. split; [reflexivity|].
  intros a' E. injection E as <-. exact H.
Qed.

Lemma read_only_bind {St A B} (Q : A -> Prop) (P : B -> Prop)
  (m : @M St A) (k : A -> @M St B) :
  read_only Q m -> (forall a, Q a -> read_only P (k a)) ->
  read_only P (mbind m k).
Proof.
  intros Hm Hk s. unfold mbind. specialize (Hm s).
  destruct (m s) as [[s1 t1] [a|e]].
  - destruct Hm as (-> & Ht1 & HQ). specialize (Hk a (HQ a eq_refl) s).
    destruct (k a s) as [[s2 t2] r]. destruct Hk as (-> & Ht2 & HP).
    split; [reflexivity|]. split; [|exact HP].
    rewrite forallb_app, Ht1, Ht2. reflexivity.
  - destruct Hm as (-> & Ht1 & _). split; [reflexivity|].
    split; [exact Ht1|discriminate].
Qed.

Lemma read_only_lift {St A} (P : A -> Prop) (r : res A) :
  (forall a, r = Ret a -> P a) -> read_only (St := St) P (lift_res r).
Proof. intros H s. simpl. auto. Qed.

Lemma read_only_weaken {St A} (P Q : A -> Prop) (m : @M St A) :
  (forall a, P a -> Q a) -> read_only P m -> read_only Q m.
Proof.
  intros HPQ Hm s. specialize (Hm s). destruct (m s) as [[s' t] r].
  destruct Hm as (H1 & H2 & H3). auto.
Qed.

Lemma read_only_get_user {St Issue} (c : client St Issue) (name : string) :
  read_only (fun _ => True) (call_get_user c name).
Proof. intro s. simpl. auto. Qed.

Lemma read_only_get_label {St Issue} (c : client St Issue) repo name :
  read_only (fun _ => True) (call_get_label c repo name).
Proof. intro s. simpl. auto. Qed.

Lemma Forall_warning_shift (lo lo' hi hi' : nat) (ws : list finding) :
  lo' <= lo -> hi <= hi' -> Forall (warning_ok lo hi) ws ->
  Forall (warning_ok lo' hi') ws.
Proof.
  intros H1 H2. apply Forall_impl. unfold warning_ok.
  intros e (Hb & Hk). split; [lia|exact Hk].
Qed.

Lemma validate_assignees_from_ro {St Issue} (c : client St Issue) (rows : list row) :
  forall n, read_only (Forall (warning_ok n (n + length rows)))
                      (validate_assignees_from c n rows).
Proof.
  induction rows as [|r rows IH]; intro n; simpl.
  - apply read_only_ret. constructor.
  - apply (read_only_bind (fun _ => True)); [apply read_only_lift; auto|].
    intros a _.
    apply (read_only_bind (Forall (warning_ok n (S n)))).
    + destruct (String.eqb a ""); [apply read_only_ret; constructor|].
      apply (read_only_bind (fun _ => True)); [apply read_only_get_user|].
      intros u _. apply read_only_ret. destruct u; [constructor|].
      apply Forall_cons; [|constructor].
      unfold warning_ok; simpl. split; [lia|left; split; reflexivity].
    + intros e He. apply (read_only_bind (Forall (warning_ok (S n) (S n + length rows)))).
      * apply IH.
      * intros es Hes. apply read_only_ret. apply Forall_app. split.
        -- eapply Forall_warning_shift; [| |exact He]; lia.
        -- eapply Forall_warning_shift; [| |exact Hes]; lia.
Qed.

Lemma check_labels_ro {St Issue} (c : client St Issue) (repo : string) (n : nat)
  (ls : list string) :
  read_only (Forall (warning_ok n (S n))) (check_labels c repo n ls).
Proof.
  induction ls as [|l ls IH]; simpl.
  - apply read_only_ret. constructor.
  - apply (read_only_bind (fun _ => True)); [apply read_only_get_label|].
    intros found _. apply (read_only_bind _ _ _ _ IH).
    intros es Hes. apply read_only_ret. apply Forall_app. split; [|exact Hes].
    destruct found; [constructor|].
    apply Forall_cons; [|constructor].
    unfold warning_ok; simpl. split; [lia|right; split; reflexivity].
Qed.

Lemma validate_labels_from_ro {St Issue} (c : client St Issue) (repo : string)
  (rows : list row) :
  forall n, read_only (Forall (warning_ok n (n + length rows)))
                      (validate_labels_from c repo n rows).
Proof.
  induction rows as [|r rows IH]; intro n; simpl.
  - apply read_only_ret. constructor.
  - apply (read_only_bind (fun _ => True)); [apply read_only_lift; auto|].
    intros ls _.
    apply (read_only_bind (Forall (warning_ok n (S n)))).
    + destruct (String.eqb ls ""); [apply read_only_ret; constructor|].
      apply check_labels_ro.
    + intros e He. apply (read_only_bind (Forall (warning_ok (S n) (S n + length rows)))).
      * apply IH.
      * intros es Hes. apply read_only_ret. apply Forall_app. split.
        -- eapply Forall_warning_shift; [| |exact He]; lia.
        -- eapply Forall_warning_shift; [| |exact Hes]; lia.
Qed.

Lemma labels_pass_ro {St Issue} (c : client St Issue) (repo : option string)
  (rows : list row) :
  read_only (Forall (warning_ok 2 (2 + length rows))) (labels_pass c repo rows).
Proof.
  unfold labels_pass. destruct repo as [r|]; [|apply read_only_ret; constructor].
  destruct (Py.truthy (Some r)); [apply validate_labels_from_ro|].
  apply read_only_ret. constructor.
Qed.

(** What [enrich] returns. *)
Lemma enrich_ro {St Issue} (c : client St Issue) (cfg : config)
  (vr : stage_result) :
  read_only (fun er => valid er = valid vr /\ rows_count er = rows_count vr /\
    errors er = errors vr /\ data er = data vr /\
    exists ws, warnings er = warnings vr ++ ws /\
               Forall (warning_ok 2 (2 + length (data vr))) ws /\
               (valid vr = false -> ws = [])) (enrich c cfg vr).
Proof.
  unfold enrich. destruct (valid vr) eqn:Ev; simpl.
  - apply (read_only_bind _ _ _ _ (validate_assignees_from_ro c (data vr) 2)).
    intros w1 H1. apply (read_only_bind _ _ _ _ (labels_pass_ro c (rr_primary cfg) (data vr))).
    intros w2 H2. apply (read_only_bind _ _ _ _ (labels_pass_ro c (rr_secondary cfg) (data vr))).
    intros w3 H3. apply read_only_ret. simpl.
    do 4 (split; [first [reflexivity|exact Ev]|]). exists (w1 ++ w2 ++ w3).
    split; [reflexivity|]. split; [|discriminate].
    repeat (apply Forall_app; split); assumption.
  - apply read_only_ret.
    do 4 (split; [first [reflexivity|exact Ev]|]). exists []. rewrite app_nil_r.
    split; [reflexivity|]. split; [constructor|reflexivity].
Qed.

(** X6: [enrich] never changes the remote state and sends only lookups
    (never a creation); when it returns, the result keeps the input's
    validity, count, errors and rows, and its warnings are the input's
    followed by new ones, each an unknown-assignee [warn] or absent-label
    [info] finding numbered between 2 and [length data + 1]; an invalid
    input gets no new warning. *)
Theorem enrich_read_only {St Issue} (c : client St Issue) (cfg : config)
  (vr : stage_result) (s s' : St) (t : list event) (r : res stage_result) :
  enrich c cfg vr s = (s', t, r) ->
  s' = s /\ Forall (fun e => is_lookup e = true) t /\
  forall er, r = Ret er ->
    valid er = valid vr /\ rows_count er = rows_count vr /\
    errors er = errors vr /\ data er = data vr /\
    exists ws, warnings er = warnings vr ++ ws /\
               Forall (warning_ok 2 (2 + length (data vr))) ws /\
               (valid vr = false -> ws = []).
Proof.
  intro E. pose proof (enrich_ro c cfg vr s) as Hro. rewrite E in Hro.
  destruct Hro as (H1 & H2 & H3).
  split; [exact H1|]. split; [apply Forall_forall, forallb_forall; exact H2|].
  exact H3.
Qed.

Lemma enrich_read_only_witness :
  let vr := valid_stage [row_of ["a"; "d"; "Task"; "x;;y"; "ann"; ""]] in
  let out := enrich (demo_client true) demo_config vr 0 in
  enrich (demo_client true) demo_config vr 0
    = (fst (fst out), snd (fst out), snd out) /\
  (fst (fst out) = 0 /\ Forall (fun e => is_lookup e = true) (snd (fst out)) /\
   forall er, snd out = Ret er ->
     valid er = valid vr /\ rows_count er = rows_count vr /\
     errors er = errors vr /\ data er = data vr /\
     exists ws, warnings er = warnings vr ++ ws /\
                Forall (warning_ok 2 (2 + length (data vr))) ws /\
                (valid vr = false -> ws = [])).
Proof.
  intros vr out.
  assert (E : enrich (demo_client true) demo_config vr 0
              = (fst (fst out), snd (fst out), snd out)) by (vm_compute; reflexivity).
  split; [exact E|exact (enrich_read_only (demo_client true) demo_config vr 0 _ _ _ E)].
Defined.

Lemma check_labels_trace {St Issue} (c : client St Issue) (repo : string)
  (n : nat) (ls : list string) (s : St) :
  exists es, check_labels c repo n ls s
  = (s, map (fun l => ELookupLabel (Some repo) l (get_label c s (Some repo) l)) ls,
     Ret es).
Proof.
  induction ls as [|l ls IH]; [eexists; reflexivity|].
  destruct IH as [es IH].
  simpl. unfold mbind. simpl. rewrite IH. simpl. rewrite app_nil_r.
  eexists. reflexivity.
Qed.

(** X7: when no ['Labels'] cell is [None], [validate_labels] sends, row by
    row, one label lookup for each [';']-separated part of the stripped cell,
    stripped; unlike [_parse_labels] it keeps empty parts, so a cell like
    ["x;;y"] makes it look up the empty name. *)
Theorem validate_labels_lookups {St Issue} (c : client St Issue)
  (rows : list row) (repo : string) (s : St) :
  Forall (fun r => get_default r "Labels" "" <> None) rows ->
  fst (validate_labels c rows repo s) = (s, flat_map (label_lookups c s repo) rows).
Proof.
  unfold validate_labels. generalize 2.
  induction rows as [|r rows IH]; intros n Hr; [reflexivity|].
  inversion Hr as [|? ? Hr1 Hrs]; subst.
  simpl. unfold lift_res. unfold label_lookups at 1.
  destruct (get_default r "Labels" "") as [v|]; [|congruence]. simpl.
  unfold mbind. simpl.
  destruct (String.eqb (Py.strip v) "").
  - simpl. specialize (IH (S n) Hrs).
    destruct (validate_labels_from c repo (S n) rows s) as [[s1 t1] r1].
    simpl in IH. injection IH as -> ->. destruct r1; simpl; rewrite ?app_nil_r; reflexivity.
  - pose proof (check_labels_trace c repo n (map Py.strip (Py.split ";" (Py.strip v))) s)
      as Hc.
    destruct Hc as [e Hc]. rewrite Hc.
    specialize (IH (S n) Hrs).
    destruct (validate_labels_from c repo (S n) rows s) as [[s2 t2] r2].
    simpl in IH. injection IH as -> ->. destruct r2; simpl; rewrite ?app_nil_r; reflexivity.
Qed.

Lemma validate_labels_lookups_witness :
  Forall (fun r => get_default r "Labels" "" <> None)
    [row_of ["a"; "d"; "Task"; "x;;y"; ""; ""]] /\
  fst (validate_labels (demo_client true) [row_of ["a"; "d"; "Task"; "x;;y"; ""; ""]]
         "askmyuni" 0)
  = (0, flat_map (label_lookups (demo_client true) 0 "askmyuni")
          [row_of ["a"; "d"; "Task"; "x;;y"; ""; ""]]) /\
  flat_map (label_lookups (demo_client true) 0 "askmyuni")
    [row_of ["a"; "d"; "Task"; "x;;y"; ""; ""]]
  = [ELookupLabel (Some "askmyuni") "x" false; ELookupLabel (Some "askmyuni") "" false;
     ELookupLabel (Some "askmyuni") "y" false].
Proof.
  assert (H : Forall (fun r => get_default r "Labels" "" <> None)
                [row_of ["a"; "d"; "Task"; "x;;y"; ""; ""]])
    by (repeat constructor; vm_compute; discriminate).
  split; [exact H|]. split; [exact (validate_labels_lookups _ _ _ 0 H)|].
  vm_compute. reflexivity.
Defined.

(** ** [IssueMapper.map_row_to_issue] and the commit loop on a short row *)

Lemma get_default_None (r : row) (k d : string) :
  get_default r k d = None <-> dict_get (cells r) k = Some None.
Proof.
  unfold get_default. destruct (dict_get (cells r) k) as [[v|]|];
    split; congruence.
Qed.

Lemma map_row_to_issue_exc (r : row) (repo : option string) :
  (forall m, map_row_to_issue r repo = Exc m -> m = Py.none_strip_error) /\
  ((exists m, map_row_to_issue r repo = Exc m) <->
   Exists (fun k => dict_get (cells r) k = Some None) strip_fields).
Proof.
  unfold map_row_to_issue, strip_fields, rbind.
  rewrite !Exists_cons, Exists_nil, <- !(get_default_None r _ "").
  destruct (get_default r "Title" "") as [t|]; simpl;
    [|split; [congruence|split; [intros _; auto|eauto]]].
  destruct (get_default r "Description" "") as [b|]; simpl;
    [|split; [congruence|split; [intros _; auto|eauto]]].
  destruct (get_default r "Assignee" "") as [a|]; simpl;
    [|split; [congruence|split; [intros _; auto|eauto]]].
  destruct (get_default r "Milestone" "") as [m|]; simpl;
    [|split; [congruence|split; [intros _; auto|eauto]]].
  split; [discriminate|].
  split; [intros [m' H]; discriminate|intros Hx; exfalso; intuition congruence].
Qed.

(** X8: [map_row_to_issue] raises exactly when one of the cells it strips
    ([Title], [Description], [Assignee], [Milestone]) is [None], and then
    with the [AttributeError] of [None.strip()]; a [None] ['Labels'] or
    ['Type'] cell does not make it raise. *)
Theorem map_row_to_issue_raises (r : row) (repo : option string) :
  (forall m, map_row_to_issue r repo = Exc m -> m = Py.none_strip_error) /\
  ((exists m, map_row_to_issue r repo = Exc m) <->
   Exists (fun k => dict_get (cells r) k = Some None) strip_fields).
Proof. apply map_row_to_issue_exc. Qed.

(** X9: the import loop turns a row with a [None] cell among [Title],
    [Description], [Assignee] and [Milestone] into a failure carrying the
    row's title and the [AttributeError] message, without sending any
    request or changing the remote state. *)
Theorem commit_row_none_cell {St Issue} (c : client St Issue) (cfg : config)
  (r : row) (s : St) :
  Exists (fun k => dict_get (cells r) k = Some None) strip_fields ->
  commit_row c cfg r s = (s, [], Ret (Failed (get r "Title") Py.none_strip_error)).
Proof.
  intro H.
  assert (E : forall repo, map_row_to_issue r repo = Exc Py.none_strip_error).
  { intro repo. destruct (map_row_to_issue_exc r repo) as [H1 H2].
    destruct (proj2 H2 H) as [m Hm]. rewrite Hm. f_equal. apply H1. exact Hm. }
  unfold commit_row, process_row, mbind, lift_res. rewrite E. reflexivity.
Qed.

Lemma commit_row_none_cell_witness :
  Exists (fun k => dict_get (cells (row_of ["a"; "d"; "Task"])) k = Some None)
    strip_fields /\
  commit_row (demo_client true) demo_config (row_of ["a"; "d"; "Task"]) 0
  = (0, [], Ret (Failed (get (row_of ["a"; "d"; "Task"]) "Title") Py.none_strip_error)).
Proof.
  assert (H : Exists (fun k => dict_get (cells (row_of ["a"; "d"; "Task"])) k = Some None)
                strip_fields)
    by (apply Exists_cons_tl, Exists_cons_tl, Exists_cons_hd; vm_compute; reflexivity).
  split; [exact H|exact (commit_row_none_cell _ _ _ 0 H)].
Defined.

(** ** The commit of one row that maps *)

Lemma map_row_to_issue_repository (r : row) (repo : option string) (i : issue) :
  map_row_to_issue r repo = Ret i -> repository i = repo.
Proof.
  unfold map_row_to_issue, rbind, strip_opt.
  destruct (get_default r "Title" ""); [|discriminate].
  destruct (get_default r "Description" ""); [|discriminate].
  destruct (get_default r "Assignee" ""); [|discriminate].
  destruct (get_default r "Milestone" ""); [|discriminate].
  intro H. injection H as <-. reflexivity.
Qed.

(** X10: for a row that maps to an issue, the import loop first checks
    (and creates where absent) each of its labels, then sends exactly one
    create request, to the row's ['Repository'] or else the default
    repository, with the issue built by [map_row_to_issue]; the row's
    outcome is the created issue, or a ["Failed to create issue"] failure
    with the row's title when the service answers nothing. *)
Theorem commit_row_mapped {St Issue} (c : client St Issue) (cfg : config)
  (r : row) (s : St) (i : issue) :
  map_row_to_issue r (Py.or_else (get r "Repository") (rr_default cfg)) = Ret i ->
  exists s1 t1,
    label_steps (Py.or_else (get r "Repository") (rr_default cfg)) (labels i) t1 /\
    commit_row c cfg r s
    = let repo := Py.or_else (get r "Repository") (rr_default cfg) in
      let '(s2, o) := create_issue c s1 repo (title i) (body i) (labels i)
                        (assignee i) (milestone i) in
      (s2, t1 ++ [ECreateIssue repo (title i)
                    (match o with Some _ => true | None => false end)],
       Ret (match o with
            | Some x => Created x
            | None => Failed (get r "Title") "Failed to create issue"
            end)).
Proof.
  intro Hm. pose proof (map_row_to_issue_repository _ _ _ Hm) as Hrepo.
  destruct (enrich_with_github_metadata_run c i s) as (s1 & t1 & Hrun & Hsteps).
  exists s1, t1. rewrite Hrepo in Hsteps. split; [exact Hsteps|].
  unfold commit_row, process_row, mbind, lift_res. rewrite Hm. simpl.
  rewrite Hrun. unfold call_create_issue.
  destruct (create_issue c s1 _ _ _ _ _ _) as [s2 o]. simpl.
  rewrite ?app_nil_r. destruct o; reflexivity.
Qed.

Lemma commit_row_mapped_witness :
  let r := row_of ["Write docs "; "d"; "Task"; "docs"; ""; ""] in
  let i := mkIssue "Write docs" "d" ["docs"; "ask-myuni"] None None (Some "Task")
             (Some "askmyuni") in
  map_row_to_issue r (Py.or_else (get r "Repository") (rr_default demo_config)) = Ret i /\
  exists s1 t1,
    label_steps (Py.or_else (get r "Repository") (rr_default demo_config)) (labels i) t1 /\
    commit_row (demo_client true) demo_config r 0
    = let repo := Py.or_else (get r "Repository") (rr_default demo_config) in
      let '(s2, o) := create_issue (demo_client true) s1 repo (title i) (body i)
                        (labels i) (assignee i) (milestone i) in
      (s2, t1 ++ [ECreateIssue repo (title i)
                    (match o with Some _ => true | None => false end)],
       Ret (match o with
            | Some x => Created x
            | None => Failed (get r "Title") "Failed to create issue"
            end)).
Proof.
  intros r i.
  assert (E : map_row_to_issue r (Py.or_else (get r "Repository") (rr_default demo_config))
              = Ret i) by (vm_compute; reflexivity).
  split; [exact E|exact (commit_row_mapped (demo_client true) demo_config r 0 i E)].
Defined.

(** ** Every text [map_row_to_issue] produces is trimmed *)

Lemma drop_space_idem (l : list ascii) :
  Py.drop_space (Py.drop_space l) = Py.drop_space l.
Proof.
  induction l as [|c t IH]; [reflexivity|]. simpl.
  destruct (Py.isspace c) eqn:E; [exact IH|]. simpl. rewrite E. reflexivity.
Qed.

Lemma drop_space_split (l : list ascii) :
  exists pre, l = pre ++ Py.drop_space l.
Proof.
  induction l as [|c t IH]; [exists []; reflexivity|]. simpl.
  destruct (Py.isspace c).
  - destruct IH as [pre Hpre]. exists (c :: pre). simpl. f_equal. exact Hpre.
  - exists []. reflexivity.
Qed.

Lemma drop_space_head (l : list ascii) :
  Py.drop_space l = [] \/
  exists c t, Py.drop_space l = c :: t /\ Py.isspace c = false.
Proof.
  induction l as [|c t IH]; [left; reflexivity|]. simpl.
  destruct (Py.isspace c) eqn:E; [exact IH|]. right. eauto.
Qed.

Lemma drop_space_keep (c : ascii) (t : list ascii) :
  Py.isspace c = false -> Py.drop_space (c :: t) = c :: t.
Proof. intro E. simpl. rewrite E. reflexivity. Qed.

(** [str.strip] is idempotent. *)
Lemma strip_idem (s : string) : Py.strip (Py.strip s) = Py.strip s.
Proof.
  unfold Py.strip at 1 2. rewrite list_ascii_of_string_of_list_ascii.
  set (l1 := Py.drop_space (list_ascii_of_string s)).
  set (m := Py.drop_space (rev l1)).
  assert (Hkey : Py.drop_space (rev m) = rev m).
  { destruct (drop_space_split (rev l1)) as [pre Hpre]. fold m in Hpre.
    assert (Hl1 : l1 = rev m ++ rev pre)
      by (rewrite <- rev_app_distr, <- Hpre, rev_involutive; reflexivity).
    destruct (rev m) as [|c t] eqn:Em; [reflexivity|].
    destruct (drop_space_head (list_ascii_of_string s)) as [H|(c' & t' & H & Hc)];
      fold l1 in H; rewrite Hl1 in H; simpl in H; [discriminate|].
    injection H as -> _. apply drop_space_keep. exact Hc. }
  rewrite Hkey, rev_involutive. unfold m. rewrite drop_space_idem. reflexivity.
Qed.

Lemma strip_nonempty_In (l : string) (v : option string) :
  In l (parse_labels v) -> l <> "" /\ Py.strip l = l.
Proof.
  unfold parse_labels. destruct v as [s|]; [|intros []].
  destruct (Py.truthy (Some s)); [|intros []].
  intro H. apply in_map_iff in H as (x & <- & Hx).
  apply filter_In in Hx as [_ Hx].
  destruct (String.eqb_spec (Py.strip x) ""); [discriminate|].
  split; [assumption|apply strip_idem].
Qed.

(** X11: every text of an issue built by [map_row_to_issue] is already
    trimmed: the title and body are stripped, every label is non-empty and
    stripped, and the assignee and milestone are [None] rather than an
    empty string. *)
Theorem map_row_to_issue_trimmed (r : row) (repo : option string) (i : issue) :
  map_row_to_issue r repo = Ret i ->
  Py.strip (title i) = title i /\ Py.strip (body i) = body i /\
  Forall (fun l => l <> "" /\ Py.strip l = l) (labels i) /\
  (forall a, assignee i = Some a -> a <> "" /\ Py.strip a = a) /\
  (forall m, milestone i = Some m -> m <> "" /\ Py.strip m = m).
Proof.
  unfold map_row_to_issue, rbind, strip_opt.
  destruct (get_default r "Title" "") as [t|]; [|discriminate].
  destruct (get_default r "Description" "") as [b|]; [|discriminate].
  destruct (get_default r "Assignee" "") as [a|]; [|discriminate].
  destruct (get_default r "Milestone" "") as [m|]; [|discriminate].
  intro H. injection H as <-. simpl.
  assert (Hne : forall x y, none_if_empty (Py.strip x) = Some y ->
                y <> "" /\ Py.strip y = y).
  { intros x y. unfold none_if_empty.
    destruct (String.eqb_spec (Py.strip x) ""); [discriminate|].
    intro E. injection E as <-. split; [assumption|apply strip_idem]. }
  split; [apply strip_idem|]. split; [apply strip_idem|].
  split; [|split; intros y Hy; eapply Hne; exact Hy].
  apply Forall_forall. intros l Hin. rewrite dedup_In in Hin.
  apply in_app_or in Hin as [Hin|[<-|[]]].
  - eapply strip_nonempty_In. exact Hin.
  - split; [discriminate|reflexivity].
Qed.

Lemma map_row_to_issue_trimmed_witness :
  let r := row_of [" Write docs "; "d "; "Task"; " docs ; ;ui"; " "; ""] in
  let i := mkIssue "Write docs" "d" ["docs"; "ui"; "ask-myuni"] None None
             (Some "Task") (Some "askmyuni") in
  map_row_to_issue r (Some "askmyuni") = Ret i /\
  (Py.strip (title i) = title i /\ Py.strip (body i) = body i /\
   Forall (fun l => l <> "" /\ Py.strip l = l) (labels i) /\
   (forall a, assignee i = Some a -> a <> "" /\ Py.strip a = a) /\
   (forall m, milestone i = Some m -> m <> "" /\ Py.strip m = m)).
Proof.
  intros r i.
  assert (E : map_row_to_issue r (Some "askmyuni") = Ret i) by (vm_compute; reflexivity).
  split; [exact E|exact (map_row_to_issue_trimmed r _ i E)].
Defined.

(** X14: unless the import is confirmed (no [--confirm] flag and an answer
    that is not ['yes'] once lower-cased, or no answer at all), the [import]
    command leaves the remote service unchanged and sends only lookups,
    whatever the file and however the run ends. *)
Theorem main_import_unconfirmed_read_only {St Issue} (c : client St Issue)
  (cfg : config) (f : csv_file) (response : option string) (s : St) :
  (forall a, response = Some a -> Py.lower a <> "yes") ->
  fst (fst (main_import c cfg f false response s)) = s /\
  Forall (fun e => is_lookup e = true) (snd (fst (main_import c cfg f false response s))).
Proof.
  intro Hno.
  assert (Hro : read_only (fun _ => True) (main_import c cfg f false response)).
  { unfold main_import.
    apply (read_only_bind (fun _ => True)); [apply read_only_lift; auto|].
    intros vr _. destruct (negb (valid vr)); [apply read_only_ret; exact I|].
    apply (read_only_bind (fun _ => True)).
    { eapply read_only_weaken; [|apply enrich_ro]. auto. }
    intros er _. apply (read_only_bind (fun go => go = false)).
    - destruct response as [a|]; [|apply read_only_lift; discriminate].
      apply read_only_ret. apply String.eqb_neq. apply Hno. reflexivity.
    - intros go ->. apply read_only_ret. exact I. }
  specialize (Hro s). destruct (main_import c cfg f false response s) as [[s' t] r].
  destruct Hro as (H1 & H2 & _). split; [exact H1|].
  apply Forall_forall, forallb_forall. exact H2.
Qed.

Lemma main_import_unconfirmed_read_only_witness :
  (forall a, Some "No" = Some a -> Py.lower a <> "yes") /\
  fst (fst (main_import (demo_client true) demo_config
              (Readable HEADER [["a"; "d"; "Task"; "x"; "ann"; ""]] None) false (Some "No") 0))
  = 0 /\
  Forall (fun e => is_lookup e = true)
    (snd (fst (main_import (demo_client true) demo_config
                 (Readable HEADER [["a"; "d"; "Task"; "x"; "ann"; ""]] None) false
                 (Some "No") 0))).
Proof.
  assert (H : forall a, Some "No" = Some a -> Py.lower a <> "yes").
  { intros a E. injection E as <-. vm_compute. discriminate. }
  split; [exact H|exact (main_import_unconfirmed_read_only _ _ _ _ 0 H)].
Defined.

(** X15: when no ['Assignee'] cell is [None], [validate_assignees] sends one
    user lookup per row whose stripped assignee is not empty, in row order
    and with no caching (a user named on several rows is looked up once per
    row), and nothing for the other rows. *)
Theorem validate_assignees_lookups {St Issue} (c : client St Issue)
  (rows : list row) (s : St) :
  Forall (fun r => get_default r "Assignee" "" <> None) rows ->
  fst (validate_assignees c rows s) = (s, flat_map (assignee_lookup c s) rows).
Proof.
  unfold validate_assignees. generalize 2.
  induction rows as [|r rows IH]; intros n Hr; [reflexivity|].
  inversion Hr as [|? ? Hr1 Hrs]; subst.
  simpl. unfold lift_res. unfold assignee_lookup at 1.
  destruct (get_default r "Assignee" "") as [v|]; [|congruence]. simpl.
  unfold mbind. simpl. specialize (IH (S n) Hrs).
  destruct (String.eqb (Py.strip v) "").
  - simpl. destruct (validate_assignees_from c (S n) rows s) as [[s1 t1] r1].
    simpl in IH. injection IH as -> ->. destruct r1; simpl; rewrite ?app_nil_r; reflexivity.
  - simpl. destruct (validate_assignees_from c (S n) rows s) as [[s1 t1] r1].
    simpl in IH. injection IH as -> ->. destruct r1; simpl; rewrite ?app_nil_r; reflexivity.
Qed.

Lemma validate_assignees_lookups_witness :
  Forall (fun r => get_default r "Assignee" "" <> None)
    [row_of ["a"; "d"; "Task"; ""; " ann "; ""]; row_of ["b"; "d"; "Task"; ""; ""; ""];
     row_of ["c"; "d"; "Epic"; ""; "ann"; ""]] /\
  fst (validate_assignees (demo_client true)
         [row_of ["a"; "d"; "Task"; ""; " ann "; ""]; row_of ["b"; "d"; "Task"; ""; ""; ""];
          row_of ["c"; "d"; "Epic"; ""; "ann"; ""]] 0)
  = (0, flat_map (assignee_lookup (demo_client true) 0)
          [row_of ["a"; "d"; "Task"; ""; " ann "; ""]; row_of ["b"; "d"; "Task"; ""; ""; ""];
           row_of ["c"; "d"; "Epic"; ""; "ann"; ""]]) /\
  flat_map (assignee_lookup (demo_client true) 0)
    [row_of ["a"; "d"; "Task"; ""; " ann "; ""]; row_of ["b"; "d"; "Task"; ""; ""; ""];
     row_of ["c"; "d"; "Epic"; ""; "ann"; ""]]
  = [ELookupUser "ann" true; ELookupUser "ann" true].
Proof.
  assert (H : Forall (fun r => get_default r "Assignee" "" <> None)
    [row_of ["a"; "d"; "Task"; ""; " ann "; ""]; row_of ["b"; "d"; "Task"; ""; ""; ""];
     row_of ["c"; "d"; "Epic"; ""; "ann"; ""]])
    by (repeat constructor; vm_compute; discriminate).
  split; [exact H|]. split; [exact (validate_assignees_lookups _ _ 0 H)|].
  vm_compute. reflexivity.
Defined.

(** ** When [enrich] raises *)

Lemma validate_assignees_from_exc {St Issue} (c : client St Issue) (rows : list row) :
  forall n s,
  (forall m, snd (validate_assignees_from c n rows s) = Exc m -> m = Py.none_strip_error) /\
  ((exists m, snd (validate_assignees_from c n rows s) = Exc m) <->
   Exists (fun r => get_default r "Assignee" "" = None) rows).
Proof.
  induction rows as [|r rows IH]; intros n s.
  - simpl. split; [discriminate|]. split; [intros [m H]; discriminate|intro H; inversion H].
  - simpl. unfold mbind, lift_res, call_get_user. simpl.
    destruct (get_default r "Assignee" "") as [v|] eqn:Ea; simpl.
    + destruct (IH (S n) s) as [IH1 IH2].
      destruct (String.eqb (Py.strip v) ""); simpl;
      destruct (validate_assignees_from c (S n) rows s) as [[s1 t1] [es|m']] eqn:E;
        simpl in *.
      all: try (split; [discriminate|]; split;
                [intros [m H]; discriminate
                |intro H; inversion H as [? ? Hr|? ? Hx]; subst;
                 [congruence|apply IH2 in Hx as [m Hm]; discriminate]]).
      all: split; [intros m H; injection H as <-; apply IH1; reflexivity|].
      all: split; [intros _; apply Exists_cons_tl, IH2; eauto|intros _; eauto].
    + split; [intros m H; injection H as <-; reflexivity|].
      split; [intros _; apply Exists_cons_hd; exact Ea|intros _; eauto].
Qed.

Lemma validate_labels_from_exc {St Issue} (c : client St Issue) (repo : string)
  (rows : list row) :
  forall n s,
  (forall m, snd (validate_labels_from c repo n rows s) = Exc m ->
             m = Py.none_strip_error) /\
  ((exists m, snd (validate_labels_from c repo n rows s) = Exc m) <->
   Exists (fun r => get_default r "Labels" "" = None) rows).
Proof.
  induction rows as [|r rows IH]; intros n s.
  - simpl. split; [discriminate|]. split; [intros [m H]; discriminate|intro H; inversion H].
  - simpl. unfold mbind, lift_res. simpl.
    destruct (get_default r "Labels" "") as [v|] eqn:Ea; simpl.
    + destruct (IH (S n) s) as [IH1 IH2].
      destruct (String.eqb (Py.strip v) "").
      * simpl.
        destruct (validate_labels_from c repo (S n) rows s) as [[s1 t1] [es|m']] eqn:E;
          simpl in *.
        -- split; [discriminate|]. split; [intros [m H]; discriminate|].
           intro H; inversion H as [? ? Hr|? ? Hx]; subst; [congruence|].
           apply IH2 in Hx as [m Hm]. discriminate.
        -- split; [intros m H; injection H as <-; apply IH1; reflexivity|].
           split; [intros _; apply Exists_cons_tl, IH2; eauto|intros _; eauto].
      * destruct (check_labels_trace c repo n (map Py.strip (Py.split ";" (Py.strip v))) s)
          as [e Hc].
        rewrite Hc. simpl.
        destruct (validate_labels_from c repo (S n) rows s) as [[s1 t1] [es|m']] eqn:E;
          simpl in *.
        -- split; [discriminate|]. split; [intros [m H]; discriminate|].
           intro H; inversion H as [? ? Hr|? ? Hx]; subst; [congruence|].
           apply IH2 in Hx as [m Hm]. discriminate.
        -- split; [intros m H; injection H as <-; apply IH1; reflexivity|].
           split; [intros _; apply Exists_cons_tl, IH2; eauto|intros _; eauto].
    + split; [intros m H; injection H as <-; reflexivity|].
      split; [intros _; apply Exists_cons_hd; exact Ea|intros _; eauto].
Qed.

Lemma labels_pass_exc {St Issue} (c : client St Issue) (repo : option string)
  (rows : list row) (s : St) :
  (forall m, snd (labels_pass c repo rows s) = Exc m -> m = Py.none_strip_error) /\
  ((exists m, snd (labels_pass c repo rows s) = Exc m) <->
   Py.truthy repo = true /\ Exists (fun r => get_default r "Labels" "" = None) rows).
Proof.
  unfold labels_pass.
  destruct repo as [r|]; simpl;
    [|split; [discriminate|split; [intros [m H]; discriminate|intros [H _]; discriminate]]].
  destruct (negb (String.eqb r "")); simpl.
  - unfold validate_labels. destruct (validate_labels_from_exc c r rows 2 s) as [H1 H2].
    split; [exact H1|]. rewrite H2. tauto.
  - split; [discriminate|split; [intros [m H]; discriminate|intros [H _]; discriminate]].
Qed.

Lemma read_only_state {St A} (P : A -> Prop) (m : @M St A) (s : St) :
  read_only P m -> fst (fst (m s)) = s.
Proof.
  intro H. specialize (H s). destruct (m s) as [[s' t] r]. apply H.
Qed.

(** X16: [enrich] raises exactly when the input is valid and some row has
    a [None] ['Assignee'] cell, or some row has a [None] ['Labels'] cell
    while the primary or secondary repository is set (a record shorter than
    the header); it raises the [AttributeError] of [None.strip()]. *)
Theorem enrich_raises_iff {St Issue} (c : client St Issue) (cfg : config)
  (vr : stage_result) (s : St) :
  (forall m, snd (enrich c cfg vr s) = Exc m -> m = Py.none_strip_error) /\
  ((exists m, snd (enrich c cfg vr s) = Exc m) <->
   valid vr = true /\
   (Exists (fun r => dict_get (cells r) "Assignee" = Some None) (data vr) \/
    ((Py.truthy (rr_primary cfg) = true \/ Py.truthy (rr_secondary cfg) = true) /\
     Exists (fun r => dict_get (cells r) "Labels" = Some None) (data vr)))).
Proof.
  assert (Hex : forall k rows,
    Exists (fun r => dict_get (cells r) k = Some None) rows <->
    Exists (fun r => get_default r k "" = None) rows).
  { intros k rows. split; apply Exists_impl; intros r; apply get_default_None. }
  rewrite !Hex.
  unfold enrich. destruct (valid vr) eqn:Ev; simpl;
    [|split; [discriminate|split; [intros [m H]; discriminate|intros [H _]; discriminate]]].
  unfold mbind, validate_assignees.
  pose proof (read_only_state _ _ s (validate_assignees_from_ro c (data vr) 2)) as S1.
  destruct (validate_assignees_from_exc c (data vr) 2 s) as [A1 A2].
  destruct (validate_assignees_from c 2 (data vr) s) as [[s1 t1] [w1|m1]] eqn:E1;
    simpl in S1, A1, A2; subst s1.
  - assert (HnA : ~ Exists (fun r => get_default r "Assignee" "" = None) (data vr))
      by (rewrite <- A2; intros [m H]; discriminate).
    pose proof (read_only_state _ _ s (labels_pass_ro c (rr_primary cfg) (data vr))) as S2.
    destruct (labels_pass_exc c (rr_primary cfg) (data vr) s) as [B1 B2].
    destruct (labels_pass c (rr_primary cfg) (data vr) s) as [[s2 t2] [w2|m2]] eqn:E2;
      simpl in S2, B1, B2; subst s2.
    + assert (HnB : ~ (Py.truthy (rr_primary cfg) = true /\
                       Exists (fun r => get_default r "Labels" "" = None) (data vr)))
        by (rewrite <- B2; intros [m H]; discriminate).
      destruct (labels_pass_exc c (rr_secondary cfg) (data vr) s) as [C1 C2].
      destruct (labels_pass c (rr_secondary cfg) (data vr) s) as [[s3 t3] [w3|m3]] eqn:E3;
        simpl in C1, C2 |- *.
      * split; [discriminate|]. split; [intros [m H]; discriminate|].
        intros [_ [H|[[H|H] H']]]; [tauto|tauto|].
        destruct (proj2 C2 (conj H H')) as [m Hm]. discriminate.
      * split; [intros m H; injection H as <-; apply C1; reflexivity|].
        assert (Hc : Py.truthy (rr_secondary cfg) = true /\
                     Exists (fun r => get_default r "Labels" "" = None) (data vr))
          by (apply C2; eauto).
        split; [intros _; split; [reflexivity|right; tauto]|intros _; simpl; eauto].
    + split; [intros m H; injection H as <-; apply B1; reflexivity|].
      assert (Hb : Py.truthy (rr_primary cfg) = true /\
                   Exists (fun r => get_default r "Labels" "" = None) (data vr))
        by (apply B2; eauto).
      split; [intros _; split; [reflexivity|right; tauto]|intros _; simpl; eauto].
  - split; [intros m H; injection H as <-; apply A1; reflexivity|].
    split; [intros _; split; [reflexivity|left; apply A2; eauto]|intros _; simpl; eauto].
Qed.
